(** * instance-manager: the reconciliation scheduler, its store and the
      lease handlers of the web server

    A shallow embedding of

    - [pkg/models/instance.go]      (records, [IsExpired]),
    - [pkg/cloud]                   (the [CloudProvider] interface),
    - [pkg/storage/file.go]         (the JSON file store),
    - [internal/scheduler/scheduler.go] (the reconciliation pass),
    - [internal/utils/validators.go]    ([ParseDuration]),
    - [pkg/webserver/server.go]     (extend / stop / terminate handlers),

    followed by the properties of the reconciliation core.

    Conventions of the embedding.

    - A [time.Time] is an integer count of nanoseconds ([Z]); [After] is
      [<] on instants.  A [time.Duration] is an [int64] count of
      nanoseconds, its products wrap around.
    - [time.Now()] is an effect: every call consumes the next reading of
      the clock of the world, so two calls in one function may differ.
    - A Go method that mutates its receiver through a pointer returns the
      mutated record.  The records held by the file store are decoded
      afresh by every load, so no pointer is shared with the store.
    - The backing file is kept in decoded form; the JSON encoder and
      decoder are taken to be inverse to each other and the decoder to
      deliver a record for every key, as [saveData] writes them.
    - The mutex of the store and the logger are not modelled: the
      embedding is sequential and log lines carry no state.
    - Every call to the provider and every mutating call to the store is
      recorded, in order, in the [calls] of the world. *)

From Stdlib Require Import ZArith Lia.
From stdpp Require Import base strings list gmap fin_maps.

Local Open Scope string_scope.
Local Open Scope list_scope.
Local Open Scope Z_scope.

(** ** Time *)

Definition time_Time := Z.
Definition time_Duration := Z.

Definition time_Nanosecond : time_Duration := 1.
Definition time_Second : time_Duration := 1000000000.
Definition time_Minute : time_Duration := 60 * time_Second.
Definition time_Hour : time_Duration := 60 * time_Minute.

(** The zero value of [time.Time]. *)
Definition time_zero : time_Time := 0.

(** [t.After(u)] *)
Definition After (t u : time_Time) : bool := bool_decide (u < t).

(** [t.Add(d)] *)
Definition Add (t : time_Time) (d : time_Duration) : time_Time := t + d.

(** Two's complement wrap-around of [int64] arithmetic. *)
Definition wrap64 (z : Z) : Z := (z + 2 ^ 63) mod 2 ^ 64 - 2 ^ 63.

(** ** pkg/models *)

Record Instance := mkInstance {
  ID : string;
  InstanceType : string;
  Provider : string;
  PublicIP : string;
  PrivateIP : string;
  State : string;
  LaunchTime : time_Time;
  Duration : time_Duration;
  AvailabilityZone : string;
  KeyName : string;
  Username : string;
  ExpiresAt : time_Time
}.

Definition set_State (s : string) (i : Instance) : Instance :=
  mkInstance (ID i) (InstanceType i) (Provider i) (PublicIP i) (PrivateIP i)
    s (LaunchTime i) (Duration i) (AvailabilityZone i) (KeyName i)
    (Username i) (ExpiresAt i).

Definition set_PublicIP (s : string) (i : Instance) : Instance :=
  mkInstance (ID i) (InstanceType i) (Provider i) s (PrivateIP i)
    (State i) (LaunchTime i) (Duration i) (AvailabilityZone i) (KeyName i)
    (Username i) (ExpiresAt i).

Definition set_PrivateIP (s : string) (i : Instance) : Instance :=
  mkInstance (ID i) (InstanceType i) (Provider i) (PublicIP i) s
    (State i) (LaunchTime i) (Duration i) (AvailabilityZone i) (KeyName i)
    (Username i) (ExpiresAt i).

Definition set_ExpiresAt (t : time_Time) (i : Instance) : Instance :=
  mkInstance (ID i) (InstanceType i) (Provider i) (PublicIP i) (PrivateIP i)
    (State i) (LaunchTime i) (Duration i) (AvailabilityZone i) (KeyName i)
    (Username i) t.

Module InstanceStatus.
Record t := mk {
  ID : string;
  State : string;
  PublicIP : string;
  PrivateIP : string;
  Username : string;
  Ready : bool
}.
End InstanceStatus.

Record InstanceRecord := mkInstanceRecord {
  Instance_ : Instance;
  CreatedAt : time_Time;
  UpdatedAt : time_Time
}.

(** ** Errors

    A Go [error] value; [nil] is [NoError].  The constructors name the
    places of the modelled code that build an error. *)

Inductive error :=
| NoError
| ErrReadFile          (* "failed to read storage file" *)
| ErrUnmarshal         (* "failed to unmarshal storage data" *)
| ErrWriteFile         (* "failed to write storage file" *)
| ErrNotFound (id : string)   (* "instance %s not found" *)
| ErrProvider (msg : string)  (* an error of the cloud provider *)
| ErrDuration (msg : string). (* an error of ParseDuration *)

Definition is_nil (e : error) : bool :=
  match e with NoError => true | _ => false end.

(** A Go result pair [(T, error)] of which exactly one side is set. *)
Inductive result (A : Type) :=
| Ok (a : A)
| Fail (e : error).
Arguments Ok {A} a.
Arguments Fail {A} e.

(** ** pkg/cloud: the provider interface

    The operations of [CloudProvider] the modelled code calls, over an
    abstract provider state [P].  [CreateInstance], [ListInstances] and
    [ValidateCredentials] are called by none of it. *)

Class CloudProvider (P : Type) := {
  GetInstanceStatus : string -> P -> result InstanceStatus.t * P;
  StartInstance : string -> P -> error * P;
  StopInstance : string -> P -> error * P;
  TerminateInstance : string -> P -> error * P
}.

(** ** pkg/storage: the backing file *)

Record StorageRecord := mkStorageRecord {
  Instances : gmap string InstanceRecord;
  SR_UpdatedAt : time_Time
}.

Inductive FileState :=
| NotExist                      (* os.Stat reports that the file is missing *)
| Unreadable                    (* os.ReadFile fails *)
| Malformed                     (* json.Unmarshal fails *)
| Stored (data : StorageRecord). (* the file decodes to [data], no record or instance null *)

Record FileStorage := mkFileStorage {
  file : FileState;
  writable : bool    (* whether os.WriteFile succeeds *)
}.

(** ** Calls recorded in the world *)

Inductive Call :=
| CallGetInstanceStatus (id : string)
| CallStartInstance (id : string)
| CallStopInstance (id : string)
| CallTerminateInstance (id : string)
| CallSaveInstance (i : Instance)
| CallUpdateInstance (i : Instance)
| CallDeleteInstance (id : string).

(** ** internal/utils/validators.go

    The functions of the Go standard library that [ParseDuration] calls
    are not part of the repository; they are taken as given. *)

Class GoRuntime := {
  strings_TrimSpace : string -> string;
  strings_ToLower : string -> string;
  strings_Fields : string -> list string;
  strconv_Atoi : string -> result Z;
  time_ParseDuration : string -> result time_Duration
}.

(** [strings.HasPrefix(s, prefix)] *)
Definition strings_HasPrefix (s prefix : string) : bool := String.prefix prefix s.

(** [func ParseDuration(durationStr string) (time.Duration, error)] *)
Definition ParseDuration `{GoRuntime} (durationStr : string) : result time_Duration :=
  let durationStr := strings_ToLower (strings_TrimSpace durationStr) in
  match strconv_Atoi durationStr with
  | Ok val => Ok (wrap64 (val * time_Hour))
  | Fail _ =>
      match time_ParseDuration durationStr with
      | Ok duration => Ok duration
      | Fail _ =>
          match strings_Fields durationStr with
          | [part0; unit] =>
              match strconv_Atoi part0 with
              | Fail _ => Fail (ErrDuration "invalid duration value")
              | Ok val =>
                  if strings_HasPrefix unit "second" then
                    Ok (wrap64 (val * time_Second))
                  else if strings_HasPrefix unit "minute" then
                    Ok (wrap64 (val * time_Minute))
                  else if strings_HasPrefix unit "hour" then
                    Ok (wrap64 (val * time_Hour))
                  else if strings_HasPrefix unit "day" then
                    Ok (wrap64 (wrap64 (val * 24) * time_Hour))
                  else Fail (ErrDuration "unknown duration unit")
              end
          | _ => Fail (ErrDuration "invalid duration format")
          end
      end
  end.

(** ** pkg/webserver: requests

    A request as the handlers read it: the method, the [instance_id]
    query parameter (empty when absent) and the decoded JSON body
    ([None] when decoding fails). *)

Module ExtendInstanceRequest.
Record t := mk { Duration : string }.
End ExtendInstanceRequest.

Record Request := mkRequest {
  Method : string;
  instance_id : string;
  Body : option ExtendInstanceRequest.t
}.

Definition http_MethodPost : string := "POST".
Definition http_StatusOK : Z := 200.
Definition http_StatusBadRequest : Z := 400.
Definition http_StatusNotFound : Z := 404.
Definition http_StatusMethodNotAllowed : Z := 405.
Definition http_StatusInternalServerError : Z := 500.

(** ** The world and its state monad *)

Section Embedding.
Context {P : Type} `{CloudProvider P} `{GoRuntime}.

Record World := mkWorld {
  provider : P;                 (* the state behind the provider *)
  storage : FileStorage;        (* the backing file of the store *)
  clock : nat -> time_Time;     (* the n-th reading of time.Now() *)
  ticks : nat;                  (* readings consumed so far *)
  lastReload : time_Time;       (* Scheduler.lastReload *)
  calls : list Call             (* calls made so far, oldest first *)
}.

Definition M (A : Type) : Type := World -> A * World.

Definition ret {A} (a : A) : M A := fun w => (a, w).

Definition bind {A B} (m : M A) (k : A -> M B) : M B :=
  fun w => let (a, w') := m w in k a w'.

Notation "x <- m ;; k" := (bind m (fun x => k))
  (at level 100, m at next level, right associativity, only parsing).

Definition set_provider (p : P) (w : World) : World :=
  mkWorld p (storage w) (clock w) (ticks w) (lastReload w) (calls w).
Definition set_storage (s : FileStorage) (w : World) : World :=
  mkWorld (provider w) s (clock w) (ticks w) (lastReload w) (calls w).
Definition set_ticks (n : nat) (w : World) : World :=
  mkWorld (provider w) (storage w) (clock w) n (lastReload w) (calls w).
Definition set_lastReload (t : time_Time) (w : World) : World :=
  mkWorld (provider w) (storage w) (clock w) (ticks w) t (calls w).
Definition set_calls (l : list Call) (w : World) : World :=
  mkWorld (provider w) (storage w) (clock w) (ticks w) (lastReload w) l.

(** Append a call to the record of calls. *)
Definition record_call (c : Call) : M unit :=
  fun w => (tt, set_calls (calls w ++ [c]) w).

(** [time.Now()] *)
Definition time_Now : M time_Time :=
  fun w => (clock w (ticks w), set_ticks (S (ticks w)) w).

(** The calls through the [CloudProvider] interface. *)
Definition provider_GetInstanceStatus (id : string) : M (result InstanceStatus.t) :=
  _ <- record_call (CallGetInstanceStatus id) ;;
  fun w => let (r, p) := GetInstanceStatus id (provider w) in (r, set_provider p w).

Definition provider_StartInstance (id : string) : M error :=
  _ <- record_call (CallStartInstance id) ;;
  fun w => let (e, p) := StartInstance id (provider w) in (e, set_provider p w).

Definition provider_StopInstance (id : string) : M error :=
  _ <- record_call (CallStopInstance id) ;;
  fun w => let (e, p) := StopInstance id (provider w) in (e, set_provider p w).

Definition provider_TerminateInstance (id : string) : M error :=
  _ <- record_call (CallTerminateInstance id) ;;
  fun w => let (e, p) := TerminateInstance id (provider w) in (e, set_provider p w).

(** ** pkg/models/instance.go *)

(** [func (i *Instance) IsExpired() bool] *)
Definition IsExpired (i : Instance) : M bool :=
  now <- time_Now ;;
  ret (After now (ExpiresAt i)).

(** ** pkg/storage/file.go *)

Definition empty_StorageRecord : StorageRecord :=
  mkStorageRecord ∅ time_zero.

(** [func (fs *FileStorage) loadData()], of result [*StorageRecord, error] *)
Definition loadData : M (result StorageRecord) :=
  fun w =>
    match file (storage w) with
    | NotExist => (Ok empty_StorageRecord, w)
    | Unreadable => (Fail ErrReadFile, w)
    | Malformed => (Fail ErrUnmarshal, w)
    | Stored data => (Ok data, w)
    end.

(** [func (fs *FileStorage) saveData(data *StorageRecord) error]; of its
    two errors the one of [os.WriteFile] is kept.  [json.MarshalIndent]
    fails on a [time.Time] whose year is not from 0 to 9999: see
    [json_world] below for the data on which it does not. *)
Definition saveData (data : StorageRecord) : M error :=
  fun w =>
    if writable (storage w)
    then (NoError, set_storage (mkFileStorage (Stored data) true) w)
    else (ErrWriteFile, w).

(** [func (fs *FileStorage) SaveInstance(instance *models.Instance) error] *)
Definition SaveInstance (instance : Instance) : M error :=
  _ <- record_call (CallSaveInstance instance) ;;
  created <- time_Now ;;
  updated <- time_Now ;;
  let record := mkInstanceRecord instance created updated in
  r <- loadData ;;
  let data := match r with
              | Ok data => data
              | Fail _ => mkStorageRecord ∅ time_zero
              end in
  now <- time_Now ;;
  saveData (mkStorageRecord (<[ID instance := record]> (Instances data)) now).

(** [func (fs *FileStorage) GetInstance(instanceID string)], of result
    [*models.Instance, error] *)
Definition GetInstance (instanceID : string) : M (result Instance) :=
  r <- loadData ;;
  match r with
  | Fail err => ret (Fail err)
  | Ok data =>
      match Instances data !! instanceID with
      | None => ret (Fail (ErrNotFound instanceID))
      | Some record => ret (Ok (Instance_ record))
      end
  end.

(** [func (fs *FileStorage) ListInstances() ([]*models.Instance, error)]

    Go ranges over the map in an unspecified order; the embedding takes
    the order of [map_to_list].  Both components of the Go result are
    kept, since this function sets them independently. *)
Definition ListInstances : M (list Instance * error) :=
  r <- loadData ;;
  match r with
  | Fail _ => ret ([], NoError)
  | Ok data =>
      ret (map (fun kv => Instance_ (snd kv)) (map_to_list (Instances data)),
           NoError)
  end.

(** [func (fs *FileStorage) UpdateInstance(instance *models.Instance) error] *)
Definition UpdateInstance (instance : Instance) : M error :=
  _ <- record_call (CallUpdateInstance instance) ;;
  r <- loadData ;;
  match r with
  | Fail err => ret err
  | Ok data =>
      match Instances data !! ID instance with
      | None => ret (ErrNotFound (ID instance))
      | Some record =>
          updated <- time_Now ;;
          now <- time_Now ;;
          let record := mkInstanceRecord instance (CreatedAt record) updated in
          saveData (mkStorageRecord (<[ID instance := record]> (Instances data)) now)
      end
  end.

(** [func (fs *FileStorage) DeleteInstance(instanceID string) error] *)
Definition DeleteInstance (instanceID : string) : M error :=
  _ <- record_call (CallDeleteInstance instanceID) ;;
  r <- loadData ;;
  match r with
  | Fail err => ret err
  | Ok data =>
      now <- time_Now ;;
      saveData (mkStorageRecord (delete instanceID (Instances data)) now)
  end.

(** ** internal/scheduler/scheduler.go *)

(** [t.Sub(u)], which saturates at the bounds of [int64]. *)
Definition Sub (t u : time_Time) : time_Duration :=
  Z.max (- 2 ^ 63) (Z.min (2 ^ 63 - 1) (t - u)).

(** [time.Since(t)] *)
Definition time_Since (t : time_Time) : M time_Duration :=
  now <- time_Now ;;
  ret (Sub now t).

(** [time.Until(t)] *)
Definition time_Until (t : time_Time) : M time_Duration :=
  now <- time_Now ;;
  ret (Sub t now).

(** The fields [interval] and [reloadInterval] as [NewScheduler] sets them. *)
Definition interval : time_Duration := 30 * time_Second.
Definition reloadInterval : time_Duration := 10 * time_Second.

(** [func (s *Scheduler) getInstancesWithReload() ([]*models.Instance, error)] *)
Definition getInstancesWithReload : M (list Instance * error) :=
  since <- (fun w => time_Since (lastReload w) w) ;;
  _ <- (if bool_decide (reloadInterval < since)
        then now <- time_Now ;; fun w => (tt, set_lastReload now w)
        else ret tt) ;;
  ListInstances.

(** [func (s *Scheduler) handleExpiredInstance(instance, logger)] *)
Definition handleExpiredInstance (instance : Instance) : M Instance :=
  timeOverdue <- time_Since (ExpiresAt instance) ;;
  err <- provider_StopInstance (ID instance) ;;
  if is_nil err then
    let instance := set_State "stopping" instance in
    _ <- UpdateInstance instance ;;
    ret instance
  else ret instance.

(** [func (s *Scheduler) startInstance(instanceID string) error] *)
Definition startInstance (instanceID : string) : M error :=
  provider_StartInstance instanceID.

(** [func (s *Scheduler) handleStoppedInstance(instance, logger)] *)
Definition handleStoppedInstance (instance : Instance) : M Instance :=
  timeRemaining <- time_Until (ExpiresAt instance) ;;
  err <- startInstance (ID instance) ;;
  if is_nil err then
    let instance := set_State "pending" instance in
    _ <- UpdateInstance instance ;;
    ret instance
  else ret instance.

(** Go's [==] on strings. *)
Definition streq (a b : string) : bool := bool_decide (a = b).

(** [func (s *Scheduler) processInstance(instance *models.Instance)] *)
Definition processInstance (instance : Instance) : M Instance :=
  if streq (State instance) "terminated" || streq (State instance) "terminating"
  then ret instance
  else
    r <- provider_GetInstanceStatus (ID instance) ;;
    match r with
    | Fail _ => ret instance
    | Ok status =>
        instance <-
          (if negb (streq (InstanceStatus.State status) (State instance)) then
             let instance := set_State (InstanceStatus.State status) instance in
             let instance := set_PublicIP (InstanceStatus.PublicIP status) instance in
             let instance := set_PrivateIP (InstanceStatus.PrivateIP status) instance in
             _ <- UpdateInstance instance ;;
             ret instance
           else ret instance) ;;
        expired <- IsExpired instance ;;
        if expired then
          if streq (InstanceStatus.State status) "running"
             || streq (InstanceStatus.State status) "pending"
          then handleExpiredInstance instance
          else ret instance
        else
          now <- time_Now ;;
          if After (ExpiresAt instance) now
             && (streq (InstanceStatus.State status) "stopped"
                 || streq (InstanceStatus.State status) "stopping")
          then handleStoppedInstance instance
          else ret instance
    end.

(** The loop [for _, instance := range instances] of [processInstances]. *)
Fixpoint range_instances (instances : list Instance) : M unit :=
  match instances with
  | [] => ret tt
  | instance :: rest =>
      _ <- processInstance instance ;;
      range_instances rest
  end.

(** [func (s *Scheduler) processInstances()] *)
Definition processInstances : M unit :=
  r <- getInstancesWithReload ;;
  let (instances, err) := r in
  if is_nil err then range_instances instances else ret tt.

(** [func (s *Scheduler) RunOnce()] *)
Definition RunOnce : M unit := processInstances.

(** ** pkg/webserver/server.go

    A handler returns the status code of its response. *)

(** [func (s *Server) handleExtendInstance(w, r)] *)
Definition handleExtendInstance (r : Request) : M Z :=
  if negb (streq (Method r) http_MethodPost) then ret http_StatusMethodNotAllowed
  else if streq (instance_id r) "" then ret http_StatusBadRequest
  else
    match Body r with
    | None => ret http_StatusBadRequest
    | Some req =>
        match ParseDuration (ExtendInstanceRequest.Duration req) with
        | Fail _ => ret http_StatusBadRequest
        | Ok duration =>
            g <- GetInstance (instance_id r) ;;
            match g with
            | Fail _ => ret http_StatusNotFound
            | Ok instance =>
                let instance :=
                  set_ExpiresAt (Add (ExpiresAt instance) duration) instance in
                err <- SaveInstance instance ;;
                if is_nil err then ret http_StatusOK
                else ret http_StatusInternalServerError
            end
        end
    end.

(** [func (s *Server) handleStopInstance(w, r)] *)
Definition handleStopInstance (r : Request) : M Z :=
  if negb (streq (Method r) http_MethodPost) then ret http_StatusMethodNotAllowed
  else if streq (instance_id r) "" then ret http_StatusBadRequest
  else
    err <- provider_StopInstance (instance_id r) ;;
    if is_nil err then
      g <- GetInstance (instance_id r) ;;
      _ <- match g with
           | Ok instance =>
               now <- time_Now ;;
               _ <- SaveInstance (set_ExpiresAt now instance) ;;
               ret tt
           | Fail _ => ret tt
           end ;;
      ret http_StatusOK
    else ret http_StatusInternalServerError.

(** [func (s *Server) handleTerminateInstance(w, r)] *)
Definition handleTerminateInstance (r : Request) : M Z :=
  if negb (streq (Method r) http_MethodPost) then ret http_StatusMethodNotAllowed
  else if streq (instance_id r) "" then ret http_StatusBadRequest
  else
    err <- provider_TerminateInstance (instance_id r) ;;
    if is_nil err then
      _ <- DeleteInstance (instance_id r) ;;
      ret http_StatusOK
    else ret http_StatusInternalServerError.

End Embedding.

(** ** The remaining functions of the modelled files *)

(** *** pkg/models/instance.go *)

(** [func (i *Instance) GetConnectionString() string] *)
Definition GetConnectionString (i : Instance) : string :=
  if negb (streq (PublicIP i) "") && negb (streq (Username i) "")
  then Username i +:+ "@" +:+ PublicIP i
  else "".

(** [func (i *Instance) GetSSHCommand() string]; the format
    ["ssh -i ~/.ssh/id_rsa %s@%s"] written out. *)
Definition GetSSHCommand (i : Instance) : string :=
  if negb (streq (PublicIP i) "") && negb (streq (Username i) "")
  then "ssh -i ~/.ssh/id_rsa " +:+ Username i +:+ "@" +:+ PublicIP i
  else "".

(** [func (i *Instance) IsReady() bool] *)
Definition IsReady (i : Instance) : bool :=
  streq (State i) "running" && negb (streq (PublicIP i) "").

(** [func (i *Instance) NeedsIPUpdate() bool] *)
Definition NeedsIPUpdate (i : Instance) : bool :=
  (streq (State i) "running" || streq (State i) "pending")
  && streq (PublicIP i) "".

(** *** The sort of the Go library, taken as given

    [sort.Slice(x, less)], with [less] read on the elements. *)
Class GoSort := {
  sort_Slice : (Instance -> Instance -> bool) -> list Instance -> list Instance
}.

Definition http_MethodGet : string := "GET".

Section EmbeddingRest.
Context {P : Type} `{CloudProvider P} `{GoRuntime} `{GoSort}.

Notation "x <- m ;; k" := (bind m (fun x => k))
  (at level 100, m at next level, right associativity, only parsing).

(** *** pkg/storage/file.go *)

(** The loop of [GetExpiredInstances] over the records of the map. *)
Fixpoint range_expired (instances : list Instance) : @M P (list Instance) :=
  match instances with
  | [] => ret []
  | instance :: rest =>
      expired <- IsExpired instance ;;
      expiredInstances <- range_expired rest ;;
      ret (if expired then instance :: expiredInstances else expiredInstances)
  end.

(** [func (fs *FileStorage) GetExpiredInstances() ([]*models.Instance, error)].
    Go ranges over the map in an order of its own at every call; the
    embedding takes the order of [map_to_list], and what is stated of
    the result is stated up to order. *)
Definition GetExpiredInstances : @M P (list Instance * error) :=
  r <- loadData ;;
  match r with
  | Fail _ => ret ([], NoError)
  | Ok data =>
      expiredInstances <-
        range_expired
          (map (fun kv => Instance_ (snd kv)) (map_to_list (Instances data))) ;;
      ret (expiredInstances, NoError)
  end.

(** *** pkg/webserver/server.go *)

(** [func (s *Server) handleHealth(w, r)] *)
Definition handleHealth (r : Request) : @M P Z := ret http_StatusOK.

(** The loop [for _, instance := range instances] of [handleInstances]. *)
Fixpoint range_sync (instances : list Instance) : @M P unit :=
  match instances with
  | [] => ret tt
  | instance :: rest =>
      s <- provider_GetInstanceStatus (ID instance) ;;
      _ <- match s with
           | Fail _ => ret tt
           | Ok status =>
               if negb (streq (InstanceStatus.PublicIP status) (PublicIP instance))
                  || negb (streq (InstanceStatus.PrivateIP status) (PrivateIP instance))
                  || negb (streq (InstanceStatus.State status) (State instance))
               then
                 let instance := set_PublicIP (InstanceStatus.PublicIP status) instance in
                 let instance := set_PrivateIP (InstanceStatus.PrivateIP status) instance in
                 let instance := set_State (InstanceStatus.State status) instance in
                 let instance :=
                   mkInstance (ID instance) (InstanceType instance) (Provider instance)
                     (PublicIP instance) (PrivateIP instance) (State instance)
                     (LaunchTime instance) (Duration instance)
                     (AvailabilityZone instance) (KeyName instance)
                     (InstanceStatus.Username status) (ExpiresAt instance) in
                 _ <- SaveInstance instance ;;
                 ret tt
               else ret tt
           end ;;
      range_sync rest
  end.

(** [func (s *Server) handleInstances(w, r)] *)
Definition handleInstances (r : Request) : @M P Z :=
  if negb (streq (Method r) http_MethodGet) then ret http_StatusMethodNotAllowed
  else
    l <- ListInstances ;;
    let (instances, err) := l in
    if is_nil err then
      let instances :=
        sort_Slice (fun a b => After (ExpiresAt a) (ExpiresAt b)) instances in
      _ <- range_sync instances ;;
      ret http_StatusOK
    else ret http_StatusInternalServerError.

(** [func (s *Server) handleInstanceStatus(w, r)]; of the response only
    the status code is kept, the two readings of the clock that fill
    [is_expired] and [time_remaining] are made. *)
Definition handleInstanceStatus (r : Request) : @M P Z :=
  if negb (streq (Method r) http_MethodGet) then ret http_StatusMethodNotAllowed
  else if streq (instance_id r) "" then ret http_StatusBadRequest
  else
    g <- GetInstance (instance_id r) ;;
    match g with
    | Fail _ => ret http_StatusNotFound
    | Ok instance =>
        s <- provider_GetInstanceStatus (instance_id r) ;;
        match s with
        | Fail _ => ret http_StatusInternalServerError
        | Ok status =>
            instance <-
              (if negb (streq (InstanceStatus.PublicIP status) (PublicIP instance))
                  || negb (streq (InstanceStatus.PrivateIP status) (PrivateIP instance))
                  || negb (streq (InstanceStatus.State status) (State instance))
               then
                 let instance := set_PublicIP (InstanceStatus.PublicIP status) instance in
                 let instance := set_PrivateIP (InstanceStatus.PrivateIP status) instance in
                 let instance := set_State (InstanceStatus.State status) instance in
                 _ <- SaveInstance instance ;;
                 ret instance
               else ret instance) ;;
            is_expired <- IsExpired instance ;;
            time_remaining <- time_Until (ExpiresAt instance) ;;
            ret http_StatusOK
        end
    end.

End EmbeddingRest.

(** ** pkg/storage/file.go with its pointers

    [StorageRecord.Instances] is a [map[string]*models.InstanceRecord]
    and [InstanceRecord.Instance] a [*models.Instance].  [saveData]
    writes neither as [null], but [json.Unmarshal] leaves a pointer nil
    where a file holds [null], and [ListInstances] dereferences every
    record of the map.  The file states above are the ones without such
    a [null]; here the decoded file is taken with its pointers, and a
    nil dereference is an outcome of its own: the function panics and
    returns nothing. *)

Record InstanceRecordPtr := mkInstanceRecordPtr {
  InstancePtr : option Instance;     (* [*models.Instance], [None] for nil *)
  CreatedAtPtr : time_Time;
  UpdatedAtPtr : time_Time
}.

Inductive DecodedFile :=
| DNotExist
| DUnreadable
| DMalformed
| DStored (instances : gmap string (option InstanceRecordPtr)) (updatedAt : time_Time).

Inductive outcome (A : Type) :=
| Returns (a : A)
| Panics.
Arguments Returns {A} a.
Arguments Panics {A}.

(** [loadData], as far as [ListInstances] looks at its result. *)
Definition loadData_ptr (f : DecodedFile) : result (gmap string (option InstanceRecordPtr)) :=
  match f with
  | DNotExist => Ok ∅
  | DUnreadable => Fail ErrReadFile
  | DMalformed => Fail ErrUnmarshal
  | DStored instances _ => Ok instances
  end.

(** The loop [for _, record := range data.Instances] of [ListInstances]:
    [record.Instance] panics on a nil [record], and appends the pointer,
    nil or not, otherwise. *)
Fixpoint range_records (records : list (string * option InstanceRecordPtr))
    (instances : list (option Instance)) : outcome (list (option Instance)) :=
  match records with
  | [] => Returns instances
  | (_, None) :: _ => Panics
  | (_, Some record) :: rest => range_records rest (instances ++ [InstancePtr record])
  end.

(** [func (fs *FileStorage) ListInstances() ([]*models.Instance, error)],
    on the decoded file with its pointers. *)
Definition ListInstances_ptr (f : DecodedFile) : outcome (list (option Instance) * error) :=
  match loadData_ptr f with
  | Fail _ => Returns ([], NoError)
  | Ok instances =>
      match range_records (map_to_list instances) [] with
      | Panics => Panics
      | Returns instances => Returns (instances, NoError)
      end
  end.

(** The key of a [null] record, if the file decodes with one. *)
Definition null_record (f : DecodedFile) (k : string) : Prop :=
  match f with
  | DStored instances _ => instances !! k = Some None
  | _ => False
  end.

(** A file state without [null], seen with its pointers. *)
Definition with_pointers (f : FileState) : DecodedFile :=
  match f with
  | NotExist => DNotExist
  | Unreadable => DUnreadable
  | Malformed => DMalformed
  | Stored data =>
      DStored
        ((fun r => Some (mkInstanceRecordPtr (Some (Instance_ r)) (CreatedAt r)
                           (UpdatedAt r))) <$> Instances data)
        (SR_UpdatedAt data)
  end.

(** ** Calls and actions *)

(** The action of an evaluation, read off the calls it issued: the first
    start or stop sent to the provider, and the record written before it. *)

Inductive Action := ActionNone | ActionStop | ActionStart.

Fixpoint action_of (cs : list Call) : Action :=
  match cs with
  | [] => ActionNone
  | CallStopInstance _ :: _ => ActionStop
  | CallStartInstance _ :: _ => ActionStart
  | _ :: cs => action_of cs
  end.

Fixpoint sync_of (cs : list Call) : option Instance :=
  match cs with
  | [] => None
  | CallUpdateInstance i :: _ => Some i
  | CallStopInstance _ :: _ | CallStartInstance _ :: _ => None
  | _ :: cs => sync_of cs
  end.

Definition is_terminate (c : Call) : bool :=
  match c with CallTerminateInstance _ => true | _ => false end.

Definition is_write (c : Call) : bool :=
  match c with
  | CallSaveInstance _ | CallUpdateInstance _ | CallDeleteInstance _ => true
  | _ => false
  end.

Definition is_action (c : Call) : bool :=
  match c with
  | CallStartInstance _ | CallStopInstance _ | CallTerminateInstance _ => true
  | _ => false
  end.

(** ** Vocabulary of the statements *)

Section Vocabulary.
Context {P : Type} `{CloudProvider P} `{GoRuntime}.

Notation "x <- m ;; k" := (bind m (fun x => k))
  (at level 100, m at next level, right associativity, only parsing).

(** A terminal lifecycle state, as the guard of [processInstance] tests it. *)
Definition terminal (i : Instance) : bool :=
  streq (State i) "terminated" || streq (State i) "terminating".

(** [Q] holds of every reading of the clock from [w] on. *)
Definition during (w : @World P) (Q : time_Time -> Prop) : Prop :=
  forall n, (ticks w <= n)%nat -> Q (clock w n).

(** The world moved from [w] to [w'] by reading the clock only forward. *)
Definition advances (w w' : @World P) : Prop :=
  clock w' = clock w /\ (ticks w <= ticks w')%nat.

(** The calls one evaluation of [processInstance] adds to the record. *)
Definition issued (i : Instance) (w : @World P) : list Call :=
  drop (length (calls w)) (calls (processInstance i w).2).

(** The record a stored instance is synced to from a live status. *)
Definition synced (status : InstanceStatus.t) (i : Instance) : Instance :=
  set_PrivateIP (InstanceStatus.PrivateIP status)
    (set_PublicIP (InstanceStatus.PublicIP status)
       (set_State (InstanceStatus.State status) i)).

(** What is stored under [id], if the file decodes. *)
Definition stored (w : @World P) (id : string) : option Instance :=
  match file (storage w) with
  | Stored data => Instance_ <$> Instances data !! id
  | _ => None
  end.

Definition stored_expiry (w : @World P) (id : string) : option time_Time :=
  ExpiresAt <$> stored w id.

(** *** The primitive steps of a reconciliation

    Everything the evaluation of a record with id [id] and expiry [e]
    does to the world is a sequence of these steps: readings of the
    clock, calls to the provider other than terminate, and store updates
    of a record with that id and that expiry. *)
Inductive touch (id : string) (e : time_Time) : @World P -> @World P -> Prop :=
| touch_tick w :
    touch id e w (set_ticks (S (ticks w)) w)
| touch_reload w t :
    touch id e w (set_lastReload t w)
| touch_provider w p :
    touch id e w (set_provider p w)
| touch_call w c :
    is_terminate c = false -> is_write c = false ->
    touch id e w (set_calls (calls w ++ [c]) w)
| touch_update w i :
    ID i = id -> ExpiresAt i = e ->
    touch id e w (UpdateInstance i w).2.

(** The calls of a stop, and of a start, of [i] against the provider
    state [p]: the action, then the optimistic write if it succeeded. *)
Definition stop_calls (i : Instance) (p : P) : list Call :=
  CallStopInstance (ID i) ::
  (if is_nil (StopInstance (ID i) p).1
   then [CallUpdateInstance (set_State "stopping" i)] else []).

Definition start_calls (i : Instance) (p : P) : list Call :=
  CallStartInstance (ID i) ::
  (if is_nil (StartInstance (ID i) p).1
   then [CallUpdateInstance (set_State "pending" i)] else []).

(** The write of the drift sync, when the live state differs. *)
Definition sync_calls (status : InstanceStatus.t) (i : Instance) : list Call :=
  if negb (streq (InstanceStatus.State status) (State i))
  then [CallUpdateInstance (synced status i)] else [].

Definition after_sync (status : InstanceStatus.t) (i : Instance) : Instance :=
  if negb (streq (InstanceStatus.State status) (State i))
  then synced status i else i.

(** The world in which [processInstance] reaches its expiry check: the
    status query has answered [status] and left the provider in [p], and
    the drift sync has written when the live state differs. *)
Definition sync_world (status : InstanceStatus.t) (p : P) (i : Instance)
    (w : @World P) : @World P :=
  let queried :=
    set_provider p (set_calls (calls w ++ [CallGetInstanceStatus (ID i)]) w) in
  if negb (streq (InstanceStatus.State status) (State i))
  then (UpdateInstance (synced status i) queried).2 else queried.

(** The time [IsExpired] reads there with its [time.Now()], and the time
    the restart check reads after it. *)
Definition expiry_reading (status : InstanceStatus.t) (p : P) (i : Instance)
    (w : @World P) : time_Time :=
  (time_Now (sync_world status p i w)).1.

Definition restart_reading (status : InstanceStatus.t) (p : P) (i : Instance)
    (w : @World P) : time_Time :=
  (time_Now (time_Now (sync_world status p i w)).2).1.

(** The calls of the expiry and restart checks of [processInstance],
    for the reading [t1] taken by [IsExpired] and the reading [t2]
    taken by the restart check. *)
Definition act_calls (status : InstanceStatus.t) (i : Instance) (p : P)
    (t1 t2 : time_Time) : list Call :=
  if After t1 (ExpiresAt i) then
    if streq (InstanceStatus.State status) "running"
       || streq (InstanceStatus.State status) "pending"
    then stop_calls i p else []
  else if After (ExpiresAt i) t2
          && (streq (InstanceStatus.State status) "stopped"
              || streq (InstanceStatus.State status) "stopping")
       then start_calls i p else [].

(** The operations on a record named by the lease invariant: a
    reconciliation pass, a lease extension, a stop asked for by a user. *)
Inductive Operation :=
| OpRunOnce
| OpExtendInstance (r : Request)
| OpStopInstance (r : Request).

Definition perform (op : Operation) : M unit :=
  match op with
  | OpRunOnce => RunOnce
  | OpExtendInstance r => (_ <- handleExtendInstance r ;; ret tt)
  | OpStopInstance r => (_ <- handleStopInstance r ;; ret tt)
  end.

(** Every record of the file sits under its own id, as [SaveInstance] and
    [UpdateInstance] put it. *)
Definition keyed (w : @World P) : Prop :=
  forall k i, stored w k = Some i -> ID i = k.

(** The operations that can only move an expiry forward: any pass, an
    extension by a duration that is not negative, and a stop by a user
    once the lease is over. *)
Definition forward_only (op : Operation) (w : @World P) : Prop :=
  match op with
  | OpRunOnce => True
  | OpExtendInstance r =>
      forall req d, Body r = Some req ->
        ParseDuration (ExtendInstanceRequest.Duration req) = Ok d -> 0 <= d
  | OpStopInstance r =>
      forall e, stored_expiry w (instance_id r) = Some e ->
        during w (fun now => e <= now)
  end.

(** A sequence of operations, one after the other, and what it means
    for each of them to be forward-only in the world it starts from. *)
Fixpoint perform_all (ops : list Operation) : M unit :=
  match ops with
  | [] => ret tt
  | op :: ops => (_ <- perform op ;; perform_all ops)
  end.

Fixpoint all_forward (ops : list Operation) (w : @World P) : Prop :=
  match ops with
  | [] => True
  | op :: ops => forward_only op w /\ all_forward ops (perform op w).2
  end.

End Vocabulary.

(** ** Vocabulary for the rest of the code *)

Definition is_query (c : Call) : bool :=
  match c with CallGetInstanceStatus _ => true | _ => false end.

(** Two instances that differ at most in state and addresses, the
    fields a sync or an optimistic write sets. *)
Definition same_lease (a b : Instance) : Prop :=
  ID a = ID b /\ InstanceType a = InstanceType b /\ Provider a = Provider b /\
  LaunchTime a = LaunchTime b /\ Duration a = Duration b /\
  AvailabilityZone a = AvailabilityZone b /\ KeyName a = KeyName b /\
  Username a = Username b /\ ExpiresAt a = ExpiresAt b.

(** The id a call is about. *)
Definition call_id (c : Call) : string :=
  match c with
  | CallGetInstanceStatus id | CallStartInstance id | CallStopInstance id
  | CallTerminateInstance id | CallDeleteInstance id => id
  | CallSaveInstance i | CallUpdateInstance i => ID i
  end.

(** How many calls of [cs] are of the kind [f]. *)
Definition count_calls (f : Call -> bool) (cs : list Call) : nat :=
  length (List.filter f cs).

Section VocabularyRest.
Context {P : Type} `{CloudProvider P} `{GoRuntime}.

(** The record of the file under [id], with its two time stamps. *)
Definition record_at (w : @World P) (id : string) : option InstanceRecord :=
  match file (storage w) with
  | Stored data => Instances data !! id
  | _ => None
  end.

(** What [json.MarshalIndent] asks of a [time.Time]: a year from 0 to
    9999.  Time is counted in nanoseconds from the zero [time.Time],
    the first instant of the year 1; the year 0 has 366 days, and the
    years 1 to 9999 have 3652059. *)
Definition time_Day : time_Duration := 24 * time_Hour.

Definition json_time (t : time_Time) : bool :=
  bool_decide (- 366 * time_Day <= t < 3652059 * time_Day).

Definition json_instance (i : Instance) : bool :=
  json_time (LaunchTime i) && json_time (ExpiresAt i).

Definition json_record (r : InstanceRecord) : bool :=
  json_instance (Instance_ r) && json_time (CreatedAt r) && json_time (UpdatedAt r).

(** The data of a file that [json.MarshalIndent] encodes. *)
Definition json_file (f : FileState) : Prop :=
  match f with
  | Stored data =>
      json_time (SR_UpdatedAt data) = true /\
      forall k r, Instances data !! k = Some r -> json_record r = true
  | _ => True
  end.

(** A world whose file and clock hold such times only, as a file that
    was decoded and a clock that shows the present do.  The encoding of
    the data is outside [saveData] above, which fails only on the write:
    the statements about a save of a time that no file held before are
    made for such worlds and such times, and tell that what the save
    hands to the encoder is such data again. *)
Definition json_world (w : @World P) : Prop :=
  during w (fun now => json_time now = true) /\ json_file (file (storage w)).



End VocabularyRest.

(** ** Doubles for the two interfaces

    A provider double after [MockProvider] of [scheduler_test.go]: it
    answers from a table of statuses, with the default status of the
    mock for an unknown id, and its actions set the state as the mock
    does.  Unlike the mock it can be [down], and then every call fails. *)

Record Mock := mkMock {
  statuses : gmap string InstanceStatus.t;
  down : bool
}.

Definition mock_default (id : string) : InstanceStatus.t :=
  InstanceStatus.mk id "running" "1.2.3.4" "" "ec2-user" true.

Definition mock_set (id state : string) (m : Mock) : Mock :=
  match statuses m !! id with
  | Some st =>
      mkMock (<[id := InstanceStatus.mk (InstanceStatus.ID st) state
                        (InstanceStatus.PublicIP st) (InstanceStatus.PrivateIP st)
                        (InstanceStatus.Username st) (InstanceStatus.Ready st)]>
                (statuses m)) (down m)
  | None => m
  end.

Definition mock_act (state : string) (id : string) (m : Mock) : error * Mock :=
  if down m then (ErrProvider "provider unreachable", m)
  else (NoError, mock_set id state m).

#[export] Instance Mock_CloudProvider : CloudProvider Mock := {
  GetInstanceStatus id m :=
    if down m then (Fail (ErrProvider "provider unreachable"), m)
    else (Ok (default (mock_default id) (statuses m !! id)), m);
  StartInstance := mock_act "pending";
  StopInstance := mock_act "stopping";
  TerminateInstance := mock_act "terminating"
}.

(** A stand-in for the Go library that knows two duration strings. *)
#[export] Instance Toy_GoRuntime : GoRuntime := {
  strings_TrimSpace s := s;
  strings_ToLower s := s;
  strings_Fields s := [s];
  strconv_Atoi _ := Fail (ErrDuration "invalid syntax");
  time_ParseDuration s :=
    if bool_decide (s = "1h") then Ok time_Hour
    else if bool_decide (s = "-1h") then Ok (- time_Hour)
    else Fail (ErrDuration "invalid duration")
}.

(** Sample data: an instance, a status, a file holding one instance, and
    a world whose clock stands still at [now]. *)

Definition sample_instance (id state : string) (expiresAt : time_Time) : Instance :=
  mkInstance id "t2.nano" "aws" "" "" state 0 time_Hour "us-east-1a" ""
    "ec2-user" expiresAt.

Definition sample_status (id state publicIP : string) : InstanceStatus.t :=
  InstanceStatus.mk id state publicIP "" "ec2-user" (streq state "running").

Definition sample_file (i : Instance) : FileState :=
  Stored (mkStorageRecord {[ ID i := mkInstanceRecord i 0 0 ]} 0).

Definition sample_world (p : Mock) (f : FileState) (now : time_Time) : @World Mock :=
  mkWorld p (mkFileStorage f true) (fun _ => now) 0 time_zero [].

(** A world in which the provider knows [i] in the state [live] with
    the public address 1.2.3.4, the file holds [i], and it is [now]. *)
Definition scene (live : string) (i : Instance) (now : time_Time) : @World Mock :=
  sample_world (mkMock {[ ID i := sample_status (ID i) live "1.2.3.4" ]} false)
    (sample_file i) now.

(** The same with an unreachable provider. *)
Definition scene_down (i : Instance) (now : time_Time) : @World Mock :=
  sample_world (mkMock ∅ true) (sample_file i) now.

(** A POST request for [id] with the duration [d] in its body. *)
Definition post (id d : string) : Request :=
  mkRequest http_MethodPost id (Some (ExtendInstanceRequest.mk d)).

(** A sort for the samples: it leaves the list as it is. *)
#[export] Instance Toy_GoSort : GoSort := {
  sort_Slice _ l := l
}.

(** A world with the file in the state [f] and an empty provider. *)
Definition scene_file (f : FileState) (wr : bool) (now : time_Time) : @World Mock :=
  mkWorld (mkMock ∅ false) (mkFileStorage f wr) (fun _ => now) 0 time_zero [].

(** The world of [scene] with a clock that shows [clock n] at its
    n-th reading. *)
Definition scene_clock (live : string) (i : Instance) (clock : nat -> time_Time)
    : @World Mock :=
  mkWorld (mkMock {[ ID i := sample_status (ID i) live "1.2.3.4" ]} false)
    (mkFileStorage (sample_file i) true) clock 0 time_zero [].

(** A stand-in for the Go library whose [strconv.Atoi] reads two
    numerals, for durations given as a bare number of hours. *)
Definition Hours_GoRuntime : GoRuntime := {|
  strings_TrimSpace s := s;
  strings_ToLower s := s;
  strings_Fields s := [s];
  strconv_Atoi s :=
    if bool_decide (s = "2") then Ok 2
    else if bool_decide (s = "3000000") then Ok 3000000
    else Fail (ErrDuration "invalid syntax");
  time_ParseDuration _ := Fail (ErrDuration "invalid duration")
|}.

(** ** Properties *)

Section Properties.
Context {P : Type} `{CloudProvider P} `{GoRuntime}.

Notation "x <- m ;; k" := (bind m (fun x => k))
  (at level 100, m at next level, right associativity, only parsing).
Implicit Types (w : @World P) (i : Instance).

Lemma bind_unfold {A B} (m : M A) (k : A -> M B) w :
  bind m k w = k (m w).1 (m w).2.
Proof. unfold bind. destruct (m w); reflexivity. Qed.

Lemma advances_refl w : advances w w.
Proof. split; [reflexivity | lia]. Qed.

Lemma advances_trans w1 w2 w3 :
  advances w1 w2 -> advances w2 w3 -> advances w1 w3.
Proof. intros [Hc1 ?] [Hc2 ?]. split; [congruence | lia]. Qed.

(** What a store update leaves alone, and the one call it records. *)
Lemma UpdateInstance_frame i w :
  let w' := (UpdateInstance i w).2 in
  advances w w' /\
  calls w' = calls w ++ [CallUpdateInstance i] /\
  provider w' = provider w /\
  lastReload w' = lastReload w.
Proof.
  unfold UpdateInstance, bind, record_call, loadData, saveData, time_Now, ret,
    advances; simpl.
  destruct (file (storage w)) as [| | |data]; simpl;
    rewrite ?lookup_empty; simpl; try (repeat split; lia).
  destruct (Instances data !! ID i); simpl; try (repeat split; lia).
  destruct (writable (storage w)); simpl; repeat split; lia.
Qed.

(** A store update writes under the id of the instance, or not at all. *)
Lemma UpdateInstance_storage i w :
  storage (UpdateInstance i w).2 = storage w \/
  exists data r updated now,
    file (storage w) = Stored data /\
    Instances data !! ID i = Some r /\
    writable (storage w) = true /\
    storage (UpdateInstance i w).2 =
      mkFileStorage
        (Stored (mkStorageRecord
                   (<[ID i := mkInstanceRecord i (CreatedAt r) updated]> (Instances data))
                   now)) true.
Proof.
  unfold UpdateInstance, bind, record_call, loadData, saveData, time_Now, ret; simpl.
  destruct (file (storage w)) as [| | |data] eqn:Hf; simpl;
    rewrite ?lookup_empty; simpl; auto.
  destruct (Instances data !! ID i) as [r|] eqn:Hl; simpl; auto.
  destruct (writable (storage w)) eqn:Hw; simpl; auto.
  right. eauto 10.
Qed.

Lemma issued_app i w cs :
  calls (processInstance i w).2 = calls w ++ cs -> issued i w = cs.
Proof. unfold issued. intros ->. apply drop_app_length. Qed.

Lemma terminal_spec i :
  terminal i = true <-> State i = "terminated" \/ State i = "terminating".
Proof.
  unfold terminal, streq. rewrite orb_true_iff, !bool_decide_eq_true. tauto.
Qed.

(** The evaluation of a record whose status query fails. *)
Lemma processInstance_query_fails i w e p' :
  terminal i = false ->
  GetInstanceStatus (ID i) (provider w) = (Fail e, p') ->
  processInstance i w =
    (i, set_provider p' (set_calls (calls w ++ [CallGetInstanceStatus (ID i)]) w)).
Proof.
  intros Ht Hq. unfold processInstance. fold (terminal i). rewrite Ht.
  unfold provider_GetInstanceStatus, bind, record_call, ret. simpl.
  rewrite Hq. reflexivity.
Qed.

(** The evaluation of a terminal record. *)
Lemma processInstance_terminal i w :
  terminal i = true -> processInstance i w = (i, w).
Proof.
  intros Ht. unfold processInstance. fold (terminal i). rewrite Ht. reflexivity.
Qed.

(** C4: a record whose lifecycleState is terminated or terminating is
    skipped by the pass: its evaluation returns the record and the world
    as they were (no provider call, no write, no reading of the clock),
    whatever its expiresAt, and the loop goes on as if the record were
    not listed. *)
Theorem C4_terminal_record_untouched i w :
  State i = "terminated" \/ State i = "terminating" ->
  processInstance i w = (i, w) /\
  issued i w = [] /\
  forall rest, range_instances (i :: rest) w = range_instances rest w.
Proof.
  intros Ht. apply terminal_spec in Ht.
  pose proof (processInstance_terminal i w Ht) as Hp.
  split; [exact Hp|]. split.
  - apply issued_app. rewrite Hp. simpl. rewrite app_nil_r. reflexivity.
  - intros rest. simpl. unfold bind. rewrite Hp. reflexivity.
Qed.

(** C6: when the status query of the provider fails, the record is
    skipped for the tick: the record is returned unchanged, the backing
    file is unchanged, and the only call of the evaluation is the status
    query itself (none at all for a terminal record): no start, no stop,
    no write to the store. *)
Theorem C6_query_failure_skips_record i w e p' :
  GetInstanceStatus (ID i) (provider w) = (Fail e, p') ->
  (processInstance i w).1 = i /\
  storage (processInstance i w).2 = storage w /\
  issued i w = (if terminal i then [] else [CallGetInstanceStatus (ID i)]) /\
  Forall (fun c => is_action c = false /\ is_write c = false) (issued i w).
Proof.
  intros Hq. destruct (terminal i) eqn:Ht.
  - pose proof (processInstance_terminal i w Ht) as Hp.
    assert (Hi : issued i w = []).
    { apply issued_app. rewrite Hp. simpl. rewrite app_nil_r. reflexivity. }
    rewrite Hp, Hi. simpl. auto.
  - rewrite (processInstance_query_fails i w e p' Ht Hq). simpl.
    assert (Hi : issued i w = [CallGetInstanceStatus (ID i)]).
    { apply issued_app. rewrite (processInstance_query_fails i w e p' Ht Hq).
      reflexivity. }
    rewrite Hi. repeat split. repeat constructor.
Qed.

Lemma ListInstances_frame w :
  (ListInstances w).1.2 = NoError /\
  (ListInstances w).2 = w /\
  match (loadData w).1 with
  | Fail _ =>
      (ListInstances w).1.1 = [] /\
      calls (RunOnce w).2 = calls w /\ storage (RunOnce w).2 = storage w
  | Ok data =>
      (ListInstances w).1.1 =
        map (fun kv => Instance_ kv.2) (map_to_list (Instances data))
  end.
Proof.
  unfold RunOnce, processInstances, getInstancesWithReload, time_Since, time_Now.
  unfold ListInstances, loadData, bind, ret.
  destruct (file (storage w)) eqn:Hf; simpl;
    repeat match goal with
           | |- context [bool_decide ?Q] => destruct (bool_decide Q); simpl
           | |- context [file (storage w)] => rewrite Hf; simpl
           end;
    rewrite ?map_to_list_empty; repeat split; reflexivity.
Qed.

(** The loop of [ListInstances] over records with their pointers: it
    returns the pointers of all of them, or panics on a nil record. *)
Lemma range_records_cases (l : list (string * option InstanceRecordPtr)) acc :
  (Forall (fun kv => is_Some kv.2) l /\
   range_records l acc =
     Returns (acc ++ map (fun kv => kv.2 ≫= InstancePtr) l)) \/
  (exists k, In (k, None) l /\ range_records l acc = Panics).
Proof.
  revert acc. induction l as [|[k [r|]] l IH]; intros acc.
  - left. split; [constructor|]. cbn. rewrite app_nil_r. reflexivity.
  - cbn [range_records].
    destruct (IH (acc ++ [InstancePtr r])) as [[Hall Hr] | (k' & Hin & Hr)].
    + left. split; [constructor; [eexists; reflexivity | exact Hall]|].
      rewrite Hr, <- app_assoc. reflexivity.
    + right. exists k'. split; [right; exact Hin | exact Hr].
  - right. exists k. split; [left; reflexivity | reflexivity].
Qed.

Lemma ListInstances_ptr_with_pointers (f : FileState) :
  ListInstances_ptr (with_pointers f) =
    Returns
      (map Some match f with
                | Stored data => map (fun kv => Instance_ kv.2) (map_to_list (Instances data))
                | _ => []
                end, NoError).
Proof.
  destruct f as [| | |data]; try reflexivity.
  unfold ListInstances_ptr, with_pointers, loadData_ptr.
  rewrite map_to_list_fmap.
  destruct (range_records_cases
              (prod_map id
                 (fun r => Some (mkInstanceRecordPtr (Some (Instance_ r))
                                   (CreatedAt r) (UpdatedAt r)))
                 <$> map_to_list (Instances data)) [])
    as [[_ ->] | (k & Hin & _)].
  - cbn [app]. f_equal. f_equal.
    induction (map_to_list (Instances data)) as [|[k r] l IH]; [reflexivity|].
    cbn. f_equal. exact IH.
  - exfalso. apply in_map_iff in Hin. destruct Hin as ([k' r] & Heq & _).
    discriminate.
Qed.

Lemma ListInstances_ptr_of_world w :
  exists instances,
    ListInstances_ptr (with_pointers (file (storage w))) =
      Returns (instances, NoError) /\
    instances ≡ₚ map Some (ListInstances w).1.1.
Proof.
  eexists. split; [apply ListInstances_ptr_with_pointers|].
  apply Permutation_map.
  unfold ListInstances, loadData, bind, ret.
  destruct (file (storage w)); reflexivity.
Qed.

(** C10 (as the code has it): [ListInstances] never returns an error
    that is not nil, but it does not always return.  On the decoded file
    with its pointers: for a missing, unreadable or undecodable file it
    returns the empty list and a nil error; for a file that decodes with
    no null record it returns the instance of every record, in some
    order, and a nil error; for a file that decodes with a null record
    it panics on that record.  The file states of the world are the
    ones without null: there [ListInstances] returns a nil error and
    leaves the world as it was, and when loading fails the list is
    empty and a reconciliation pass issues no call. *)
Theorem C10_ListInstances_nil_error_or_panic (f : DecodedFile) w :
  match ListInstances_ptr f with
  | Returns (instances, err) =>
      err = NoError /\
      match loadData_ptr f with
      | Fail _ => instances = []
      | Ok records =>
          Forall (fun kv => is_Some kv.2) (map_to_list records) /\
          instances ≡ₚ map (fun kv => kv.2 ≫= InstancePtr) (map_to_list records)
      end
  | Panics => exists k, null_record f k
  end /\
  (exists instances,
     ListInstances_ptr (with_pointers (file (storage w))) =
       Returns (instances, NoError) /\
     instances ≡ₚ map Some (ListInstances w).1.1) /\
  (ListInstances w).1.2 = NoError /\
  (ListInstances w).2 = w /\
  match file (storage w) with
  | NotExist | Unreadable | Malformed =>
      (ListInstances w).1.1 = [] /\
      calls (RunOnce w).2 = calls w /\ storage (RunOnce w).2 = storage w
  | Stored data =>
      (ListInstances w).1.1 ≡ₚ
        map (fun kv => Instance_ kv.2) (map_to_list (Instances data))
  end.
Proof.
  split; [|split].
  - unfold ListInstances_ptr.
    destruct f as [| | |records updatedAt]; cbn [loadData_ptr];
      try (split; reflexivity).
    + cbn. rewrite map_to_list_empty. cbn. repeat split; constructor.
    + destruct (range_records_cases (map_to_list records) [])
        as [[Hall ->] | (k & Hin & ->)].
      * cbn [app]. split; [reflexivity|]. split; [exact Hall | reflexivity].
      * exists k. cbn [null_record].
        apply list_elem_of_In, elem_of_map_to_list in Hin. exact Hin.
  - apply ListInstances_ptr_of_world.
  - destruct (ListInstances_frame w) as (He & Hw & Hl).
    split; [exact He|]. split; [exact Hw|].
    clear He Hw Hl.
    unfold RunOnce, processInstances, getInstancesWithReload, time_Since, time_Now.
    unfold ListInstances, loadData, bind, ret.
    destruct (file (storage w)) eqn:Hf; simpl;
      repeat match goal with
             | |- context [bool_decide ?Q] => destruct (bool_decide Q); simpl
             | |- context [file (storage w)] => rewrite Hf; simpl
             end;
      rewrite ?map_to_list_empty; repeat split; reflexivity.
Qed.

Lemma touch_provider_call id e (c : Call) (op : string -> P -> error * P) k w :
  is_terminate c = false -> is_write c = false ->
  rtc (touch id e) w
    (bind (record_call c)
       (fun _ w => let (r, p) := op k (provider w) in (r, set_provider p w)) w).2.
Proof.
  intros Hc Hw. unfold bind, record_call. simpl.
  destruct (op k (provider w)) as [r p] eqn:Hop. simpl.
  eapply rtc_l; [apply (touch_call id e w c Hc Hw)|].
  apply rtc_once. apply (touch_provider id e _ p).
Qed.

Lemma bind_ret_snd {A B} (m : M A) (b : B) w :
  (bind m (fun _ => ret b) w).2 = (m w).2.
Proof. unfold bind, ret. destruct (m w); reflexivity. Qed.

Lemma bind_ret_fst {A B} (m : M A) (b : B) w :
  (bind m (fun _ => ret b) w).1 = b.
Proof. unfold bind, ret. destruct (m w); reflexivity. Qed.

Lemma handleExpiredInstance_touch i w :
  rtc (touch (ID i) (ExpiresAt i)) w (handleExpiredInstance i w).2.
Proof.
  unfold handleExpiredInstance. rewrite bind_unfold.
  etrans; [apply rtc_once, touch_tick|].
  change (time_Since (ExpiresAt i) w).2 with (set_ticks (S (ticks w)) w).
  generalize (set_ticks (S (ticks w)) w). intros w1.
  rewrite bind_unfold.
  pose proof (touch_provider_call (ID i) (ExpiresAt i) (CallStopInstance (ID i))
                StopInstance (ID i) w1 eq_refl eq_refl) as Hstep.
  fold (provider_StopInstance (ID i) w1) in Hstep.
  destruct (provider_StopInstance (ID i) w1) as [err w2]. cbn [fst snd] in *.
  etrans; [exact Hstep|].
  destruct (is_nil err); [|apply rtc_refl].
  rewrite bind_ret_snd. apply rtc_once. apply touch_update; reflexivity.
Qed.

Lemma handleStoppedInstance_touch i w :
  rtc (touch (ID i) (ExpiresAt i)) w (handleStoppedInstance i w).2.
Proof.
  unfold handleStoppedInstance, startInstance. rewrite bind_unfold.
  etrans; [apply rtc_once, touch_tick|].
  change (time_Until (ExpiresAt i) w).2 with (set_ticks (S (ticks w)) w).
  generalize (set_ticks (S (ticks w)) w). intros w1.
  rewrite bind_unfold.
  pose proof (touch_provider_call (ID i) (ExpiresAt i) (CallStartInstance (ID i))
                StartInstance (ID i) w1 eq_refl eq_refl) as Hstep.
  fold (provider_StartInstance (ID i) w1) in Hstep.
  destruct (provider_StartInstance (ID i) w1) as [err w2]. cbn [fst snd] in *.
  etrans; [exact Hstep|].
  destruct (is_nil err); [|apply rtc_refl].
  rewrite bind_ret_snd. apply rtc_once. apply touch_update; reflexivity.
Qed.

Lemma processInstance_touch i w :
  rtc (touch (ID i) (ExpiresAt i)) w (processInstance i w).2.
Proof.
  unfold processInstance.
  destruct (streq (State i) "terminated" || streq (State i) "terminating");
    [apply rtc_refl|].
  rewrite bind_unfold.
  assert (Hq : rtc (touch (ID i) (ExpiresAt i)) w
                 (provider_GetInstanceStatus (ID i) w).2).
  { unfold provider_GetInstanceStatus, bind, record_call. cbn [fst snd].
    destruct (GetInstanceStatus (ID i) _) as [r p]. cbn [fst snd].
    eapply rtc_l; [apply (touch_call _ _ w (CallGetInstanceStatus (ID i)));
                   reflexivity|].
    apply rtc_once. apply (touch_provider _ _ _ p). }
  destruct (provider_GetInstanceStatus (ID i) w) as [r w1]. cbn [fst snd] in *.
  etrans; [exact Hq|]. clear Hq.
  destruct r as [status|]; [|apply rtc_refl].
  rewrite bind_unfold.
  set (sync := if negb (streq (InstanceStatus.State status) (State i)) then _ else _).
  assert (Hs : rtc (touch (ID i) (ExpiresAt i)) w1 (sync w1).2 /\
               ID (sync w1).1 = ID i /\ ExpiresAt (sync w1).1 = ExpiresAt i).
  { subst sync.
    destruct (negb (streq (InstanceStatus.State status) (State i))).
    - rewrite bind_ret_snd, bind_ret_fst. split; [|split; reflexivity].
      apply rtc_once. apply touch_update; reflexivity.
    - unfold ret. cbn [fst snd]. split; [apply rtc_refl | split; reflexivity]. }
  destruct Hs as (Hs & Hid & He). etrans; [exact Hs|]. clear Hs.
  destruct (sync w1) as [i1 w2]. cbn [fst snd] in *. clear sync.
  rewrite <- Hid, <- He.
  unfold IsExpired. rewrite !bind_unfold. unfold ret at 1. cbn [fst snd].
  change (time_Now w2).2 with (set_ticks (S (ticks w2)) w2).
  eapply rtc_l; [apply touch_tick|].
  generalize (set_ticks (S (ticks w2)) w2). generalize ((time_Now w2).1).
  intros t1 w3.
  destruct (After t1 (ExpiresAt i1)).
  - destruct (streq (InstanceStatus.State status) "running"
              || streq (InstanceStatus.State status) "pending").
    + apply handleExpiredInstance_touch.
    + apply rtc_refl.
  - rewrite bind_unfold.
    change (time_Now w3).2 with (set_ticks (S (ticks w3)) w3).
    eapply rtc_l; [apply touch_tick|].
    match goal with |- context [if ?b then _ else _] => destruct b end.
    + apply handleStoppedInstance_touch.
    + apply rtc_refl.
Qed.

(** [UpdateInstance], case by case. *)
Lemma UpdateInstance_eq i w :
  UpdateInstance i w =
    let w0 := set_calls (calls w ++ [CallUpdateInstance i]) w in
    match file (storage w) with
    | NotExist => (ErrNotFound (ID i), w0)
    | Unreadable => (ErrReadFile, w0)
    | Malformed => (ErrUnmarshal, w0)
    | Stored data =>
        match Instances data !! ID i with
        | None => (ErrNotFound (ID i), w0)
        | Some r =>
            if writable (storage w) then
              (NoError,
               mkWorld (provider w)
                 (mkFileStorage
                    (Stored (mkStorageRecord
                               (<[ID i := mkInstanceRecord i (CreatedAt r)
                                            (clock w (ticks w))]> (Instances data))
                               (clock w (S (ticks w))))) true)
                 (clock w) (S (S (ticks w))) (lastReload w)
                 (calls w ++ [CallUpdateInstance i]))
            else
              (ErrWriteFile,
               mkWorld (provider w) (storage w) (clock w) (S (S (ticks w)))
                 (lastReload w) (calls w ++ [CallUpdateInstance i]))
        end
    end.
Proof.
  unfold UpdateInstance, bind, record_call, loadData, saveData, time_Now, ret.
  cbn [fst snd storage set_calls].
  destruct (file (storage w)) as [| | |data]; try reflexivity.
  destruct (Instances data !! ID i); [|reflexivity].
  cbn. destruct (writable (storage w)); reflexivity.
Qed.

(** What the store holds after an update: the instance under its own
    id, provided a record was there and the file could be written. *)
Lemma UpdateInstance_stored i w k :
  stored (UpdateInstance i w).2 k =
    if writable (storage w) && bool_decide (is_Some (stored w (ID i)))
       && bool_decide (k = ID i)
    then Some i else stored w k.
Proof.
  rewrite UpdateInstance_eq. unfold stored. cbn zeta.
  destruct (file (storage w)) as [| | |data] eqn:Hf; cbn [snd storage set_calls];
    rewrite ?Hf;
    try (rewrite bool_decide_eq_false_2 by (intros [? ?]; discriminate);
         rewrite andb_false_r; reflexivity).
  destruct (Instances data !! ID i) as [r|] eqn:Hl; cbn [snd storage set_calls];
    rewrite ?Hf.
  2:{ rewrite bool_decide_eq_false_2 by (intros [? ?]; discriminate).
      rewrite andb_false_r; reflexivity. }
  rewrite bool_decide_eq_true_2 by (cbn; eauto). rewrite andb_true_r.
  destruct (writable (storage w)) eqn:Hw; cbn [snd storage file andb]; rewrite ?Hf;
    [|reflexivity].
  cbn [Instances].
  case_bool_decide as Hk.
  - subst k. rewrite lookup_insert_eq. reflexivity.
  - rewrite lookup_insert_ne by congruence. reflexivity.
Qed.

Lemma touch_calls id e w w' :
  touch id e w w' ->
  exists cs, calls w' = calls w ++ cs /\ Forall (fun c => is_terminate c = false) cs.
Proof.
  destruct 1 as [w|w t|w p|w c Hc _|w i _ _].
  - exists []. simpl. rewrite app_nil_r. auto.
  - exists []. simpl. rewrite app_nil_r. auto.
  - exists []. simpl. rewrite app_nil_r. auto.
  - exists [c]. simpl. auto.
  - exists [CallUpdateInstance i]. split; [apply UpdateInstance_frame|].
    repeat constructor.
Qed.

Lemma rtc_touch_calls id e w w' :
  rtc (touch id e) w w' ->
  exists cs, calls w' = calls w ++ cs /\ Forall (fun c => is_terminate c = false) cs.
Proof.
  induction 1 as [w|w1 w2 w3 Hstep _ (cs2 & Hc2 & Hf2)].
  - exists []. rewrite app_nil_r. auto.
  - destruct (touch_calls _ _ _ _ Hstep) as (cs1 & Hc1 & Hf1).
    exists (cs1 ++ cs2). rewrite Hc2, Hc1, app_assoc. split; [reflexivity|].
    apply Forall_app; auto.
Qed.

Lemma touch_stored_expiry id e w w' :
  (forall e0, stored_expiry w id = Some e0 -> e0 = e) ->
  touch id e w w' ->
  forall k, stored_expiry w' k = stored_expiry w k.
Proof.
  intros Hid Hstep k. destruct Hstep as [w|w t|w p|w c _ _|w i Hi He]; try reflexivity.
  unfold stored_expiry. rewrite UpdateInstance_stored.
  destruct (writable (storage w)); [|reflexivity]. cbn [andb].
  case_bool_decide as Hsome; [|reflexivity]. cbn [andb].
  case_bool_decide as Hk; [|reflexivity]. subst k.
  destruct Hsome as [i0 Hi0]. rewrite Hi0. cbn.
  f_equal. rewrite He. symmetry. apply Hid. unfold stored_expiry.
  rewrite <- Hi, Hi0. reflexivity.
Qed.

Lemma rtc_touch_stored_expiry id e w w' :
  (forall e0, stored_expiry w id = Some e0 -> e0 = e) ->
  rtc (touch id e) w w' ->
  forall k, stored_expiry w' k = stored_expiry w k.
Proof.
  intros Hid Hrtc. induction Hrtc as [|w1 w2 w3 Hstep _ IH]; [reflexivity|].
  intros k. pose proof (touch_stored_expiry _ _ _ _ Hid Hstep) as H12.
  rewrite IH, H12; [reflexivity|].
  intros e0. rewrite H12. apply Hid.
Qed.

(** *** The calls of one evaluation *)

Lemma provider_GetInstanceStatus_eq id w :
  provider_GetInstanceStatus id w =
    ((GetInstanceStatus id (provider w)).1,
     set_provider (GetInstanceStatus id (provider w)).2
       (set_calls (calls w ++ [CallGetInstanceStatus id]) w)).
Proof.
  unfold provider_GetInstanceStatus, bind, record_call. cbn.
  destruct (GetInstanceStatus id (provider w)); reflexivity.
Qed.

Lemma provider_StopInstance_eq id w :
  provider_StopInstance id w =
    ((StopInstance id (provider w)).1,
     set_provider (StopInstance id (provider w)).2
       (set_calls (calls w ++ [CallStopInstance id]) w)).
Proof.
  unfold provider_StopInstance, bind, record_call. cbn.
  destruct (StopInstance id (provider w)); reflexivity.
Qed.

Lemma provider_StartInstance_eq id w :
  provider_StartInstance id w =
    ((StartInstance id (provider w)).1,
     set_provider (StartInstance id (provider w)).2
       (set_calls (calls w ++ [CallStartInstance id]) w)).
Proof.
  unfold provider_StartInstance, bind, record_call. cbn.
  destruct (StartInstance id (provider w)); reflexivity.
Qed.

Lemma provider_TerminateInstance_eq id w :
  provider_TerminateInstance id w =
    ((TerminateInstance id (provider w)).1,
     set_provider (TerminateInstance id (provider w)).2
       (set_calls (calls w ++ [CallTerminateInstance id]) w)).
Proof.
  unfold provider_TerminateInstance, bind, record_call. cbn.
  destruct (TerminateInstance id (provider w)); reflexivity.
Qed.


Lemma handleExpiredInstance_calls i w :
  calls (handleExpiredInstance i w).2 = calls w ++ stop_calls i (provider w) /\
  (handleExpiredInstance i w).1 =
    (if is_nil (StopInstance (ID i) (provider w)).1
     then set_State "stopping" i else i).
Proof.
  unfold handleExpiredInstance, stop_calls.
  rewrite bind_unfold.
  change (time_Since (ExpiresAt i) w).2 with (set_ticks (S (ticks w)) w).
  rewrite bind_unfold, provider_StopInstance_eq. cbn [fst snd provider set_ticks].
  destruct (is_nil (StopInstance (ID i) (provider w)).1).
  - rewrite bind_ret_snd, bind_ret_fst. split; [|reflexivity].
    destruct (UpdateInstance_frame (set_State "stopping" i)
      (set_provider (StopInstance (ID i) (provider w)).2
         (set_calls (calls (set_ticks (S (ticks w)) w) ++ [CallStopInstance (ID i)])
            (set_ticks (S (ticks w)) w)))) as (_ & Hc & _).
    rewrite Hc. cbn [calls set_provider set_calls set_ticks].
    rewrite <- app_assoc. reflexivity.
  - unfold ret. cbn. split; reflexivity.
Qed.

Lemma handleStoppedInstance_calls i w :
  calls (handleStoppedInstance i w).2 = calls w ++ start_calls i (provider w) /\
  (handleStoppedInstance i w).1 =
    (if is_nil (StartInstance (ID i) (provider w)).1
     then set_State "pending" i else i).
Proof.
  unfold handleStoppedInstance, startInstance, start_calls.
  rewrite bind_unfold.
  change (time_Until (ExpiresAt i) w).2 with (set_ticks (S (ticks w)) w).
  rewrite bind_unfold, provider_StartInstance_eq. cbn [fst snd provider set_ticks].
  destruct (is_nil (StartInstance (ID i) (provider w)).1).
  - rewrite bind_ret_snd, bind_ret_fst. split; [|reflexivity].
    destruct (UpdateInstance_frame (set_State "pending" i)
      (set_provider (StartInstance (ID i) (provider w)).2
         (set_calls (calls (set_ticks (S (ticks w)) w) ++ [CallStartInstance (ID i)])
            (set_ticks (S (ticks w)) w)))) as (_ & Hc & _).
    rewrite Hc. cbn [calls set_provider set_calls set_ticks].
    rewrite <- app_assoc. reflexivity.
  - unfold ret. cbn. split; reflexivity.
Qed.


Lemma processInstance_issued i w status p' :
  terminal i = false ->
  GetInstanceStatus (ID i) (provider w) = (Ok status, p') ->
  exists n, (ticks w <= n)%nat /\
    issued i w =
      CallGetInstanceStatus (ID i) :: sync_calls status i ++
      act_calls status (after_sync status i) p' (clock w n) (clock w (S n)).
Proof.
  intros Ht Hq.
  assert (Hcalls : exists n, (ticks w <= n)%nat /\
    calls (processInstance i w).2 =
      calls w ++ CallGetInstanceStatus (ID i) :: sync_calls status i ++
      act_calls status (after_sync status i) p' (clock w n) (clock w (S n))).
  2:{ destruct Hcalls as (n & Hn & Hc). exists n. split; [exact Hn|].
      apply issued_app. exact Hc. }
  unfold processInstance. fold (terminal i). rewrite Ht.
  rewrite bind_unfold, provider_GetInstanceStatus_eq, Hq. cbn [fst snd].
  set (w1 := set_provider p' _).
  rewrite bind_unfold.
  fold (synced status i). unfold sync_calls, after_sync.
  set (sync := if negb (streq (InstanceStatus.State status) (State i)) then _ else _).
  assert (Hs : exists w2 : World,
    sync w1 =
      (if negb (streq (InstanceStatus.State status) (State i))
       then synced status i else i, w2) /\
    advances w w2 /\ provider w2 = p' /\
    calls w2 = calls w ++ CallGetInstanceStatus (ID i) ::
      (if negb (streq (InstanceStatus.State status) (State i))
       then [CallUpdateInstance (synced status i)] else [])).
  { subst sync.
    destruct (negb (streq (InstanceStatus.State status) (State i))).
    - exists (UpdateInstance (synced status i) w1).2. split.
      + rewrite (surjective_pairing (bind _ _ w1)).
        rewrite bind_ret_fst, bind_ret_snd. reflexivity.
      + destruct (UpdateInstance_frame (synced status i) w1) as (Ha & Hc & Hp & _).
        split; [|split].
        * eapply advances_trans; [|exact Ha]. subst w1. split; [reflexivity|].
          cbn. lia.
        * rewrite Hp. reflexivity.
        * rewrite Hc. subst w1. cbn [calls set_provider set_calls].
          rewrite <- app_assoc. reflexivity.
    - exists w1. split; [reflexivity|]. subst w1. repeat split. cbn. lia. }
  destruct Hs as (w2 & -> & (Hclk & Htk) & Hp & Hc). cbn [fst snd]. clear sync.
  set (i1 := if negb (streq (InstanceStatus.State status) (State i))
            then synced status i else i) in *.
  exists (ticks w2). split; [exact Htk|]. rewrite <- Hclk.
  unfold IsExpired, act_calls. rewrite !bind_unfold. unfold ret.
  cbn [fst snd time_Now].
  destruct (After (clock w2 (ticks w2)) (ExpiresAt i1)).
  - destruct (streq (InstanceStatus.State status) "running"
              || streq (InstanceStatus.State status) "pending").
    + destruct (handleExpiredInstance_calls i1 (set_ticks (S (ticks w2)) w2)) as [Hh _].
      rewrite Hh. cbn [calls provider set_ticks]. rewrite Hc, Hp.
      rewrite <- app_assoc. reflexivity.
    + cbn. rewrite Hc, app_nil_r. reflexivity.
  - rewrite bind_unfold. cbn [fst snd time_Now set_ticks ticks clock].
    match goal with |- context [if ?b then handleStoppedInstance _ else _] =>
      destruct b end.
    + match goal with |- context [handleStoppedInstance i1 ?w] =>
        destruct (handleStoppedInstance_calls i1 w) as [Hh _] end.
      rewrite Hh. cbn [calls provider set_ticks]. rewrite Hc, Hp.
      rewrite <- app_assoc. reflexivity.
    + cbn. rewrite Hc, app_nil_r. reflexivity.
Qed.

Lemma After_true t u : u < t -> After t u = true.
Proof. intros. unfold After. apply bool_decide_eq_true_2. assumption. Qed.

Lemma After_false t u : t <= u -> After t u = false.
Proof. intros. unfold After. apply bool_decide_eq_false_2. lia. Qed.

Lemma ExpiresAt_after_sync status i : ExpiresAt (after_sync status i) = ExpiresAt i.
Proof. unfold after_sync. destruct (negb _); reflexivity. Qed.

Lemma handleStoppedInstance_stored i w k :
  stored (handleStoppedInstance i w).2 k =
    if is_nil (StartInstance (ID i) (provider w)).1
       && (writable (storage w) && bool_decide (is_Some (stored w (ID i)))
           && bool_decide (k = ID i))
    then Some (set_State "pending" i) else stored w k.
Proof.
  unfold handleStoppedInstance, startInstance.
  rewrite bind_unfold.
  change (time_Until (ExpiresAt i) w).2 with (set_ticks (S (ticks w)) w).
  rewrite bind_unfold, provider_StartInstance_eq. cbn [fst snd provider set_ticks].
  destruct (is_nil (StartInstance (ID i) (provider w)).1); cbn [andb].
  - rewrite bind_ret_snd, UpdateInstance_stored. reflexivity.
  - reflexivity.
Qed.

Lemma UpdateInstance_writable i w :
  writable (storage w) = true -> writable (storage (UpdateInstance i w).2) = true.
Proof.
  intros Hw.
  destruct (UpdateInstance_storage i w)
    as [-> | (? & ? & ? & ? & _ & _ & _ & ->)]; [exact Hw | reflexivity].
Qed.

(** The evaluation of a drifted, unexpired record, step by step: the
    status query, the sync write, the two readings of the clock, and the
    restart of the synced record. *)
Lemma processInstance_drift_restart i w status p' :
  State i = "running" ->
  GetInstanceStatus (ID i) (provider w) = (Ok status, p') ->
  InstanceStatus.State status = "stopped" ->
  during w (fun now => now < ExpiresAt i) ->
  let queried :=
    set_provider p' (set_calls (calls w ++ [CallGetInstanceStatus (ID i)]) w) in
  let w2 := (UpdateInstance (synced status i) queried).2 in
  processInstance i w =
    handleStoppedInstance (synced status i) (set_ticks (S (S (ticks w2))) w2).
Proof.
  intros Hst Hq Hlive Hfuture queried w2.
  assert (Ht : terminal i = false) by (unfold terminal; rewrite Hst; reflexivity).
  assert (Hsync : negb (streq (InstanceStatus.State status) (State i)) = true)
    by (rewrite Hlive, Hst; reflexivity).
  assert (Hadv : advances w w2).
  { eapply advances_trans; [|apply UpdateInstance_frame].
    split; [reflexivity | cbn; lia]. }
  destruct Hadv as [Hclk Htk].
  unfold processInstance. fold (terminal i). rewrite Ht.
  rewrite bind_unfold, provider_GetInstanceStatus_eq, Hq. cbn [fst snd].
  rewrite bind_unfold, Hsync. rewrite bind_ret_fst, bind_ret_snd.
  fold (synced status i). fold queried. fold w2.
  unfold IsExpired. rewrite !bind_unfold. unfold ret. cbn [fst snd time_Now].
  change (ExpiresAt (synced status i)) with (ExpiresAt i).
  rewrite After_false
    by (rewrite Hclk; specialize (Hfuture (ticks w2) Htk); cbn beta in Hfuture; lia).
  rewrite bind_unfold. cbn [fst snd time_Now set_ticks ticks clock].
  rewrite After_true by (rewrite Hclk; apply (Hfuture (S (ticks w2))); lia).
  rewrite Hlive. reflexivity.
Qed.

(** C1: a record stored as running, reported stopped by the provider,
    with expiresAt after every reading of the clock.  One evaluation
    queries the status, writes the synced record (state stopped, live
    addresses) to the store, and only then sends start to the provider:
    the action of the evaluation is Start, not None.  The record comes
    back synced (and pending, if the start succeeded), and so it stands
    in the store when the file held it and can be written. *)
Theorem C1_drift_sync_then_start i w status p' :
  State i = "running" ->
  GetInstanceStatus (ID i) (provider w) = (Ok status, p') ->
  InstanceStatus.State status = "stopped" ->
  during w (fun now => now < ExpiresAt i) ->
  let i1 := synced status i in
  let final :=
    if is_nil (StartInstance (ID i) p').1 then set_State "pending" i1 else i1 in
  State i1 = "stopped" /\
  issued i w =
    CallGetInstanceStatus (ID i) :: CallUpdateInstance i1 :: start_calls i1 p' /\
  sync_of (issued i w) = Some i1 /\
  action_of (issued i w) = ActionStart /\
  (processInstance i w).1 = final /\
  (writable (storage w) = true -> is_Some (stored w (ID i)) ->
   stored (processInstance i w).2 (ID i) = Some final).
Proof.
  intros Hst Hq Hlive Hfuture i1 final.
  assert (Ht : terminal i = false) by (unfold terminal; rewrite Hst; reflexivity).
  destruct (processInstance_issued i w status p' Ht Hq) as (n & Hn & Hi).
  assert (Hsync : negb (streq (InstanceStatus.State status) (State i)) = true)
    by (rewrite Hlive, Hst; reflexivity).
  unfold sync_calls, after_sync, act_calls in Hi. rewrite Hsync in Hi.
  change (ExpiresAt (synced status i)) with (ExpiresAt i) in Hi.
  rewrite After_false in Hi by (specialize (Hfuture n Hn); simpl in Hfuture; lia).
  rewrite After_true in Hi by (apply (Hfuture (S n)); lia).
  rewrite Hlive in Hi. cbn in Hi.
  pose proof (processInstance_drift_restart i w status p' Hst Hq Hlive Hfuture) as He.
  cbn zeta in He. fold i1 in He.
  set (queried := set_provider p' _) in He.
  set (w2 := (UpdateInstance i1 queried).2) in He.
  destruct (UpdateInstance_frame i1 queried) as (_ & _ & Hp2 & _). fold w2 in Hp2.
  split; [exact Hlive|]. split; [exact Hi|].
  split; [rewrite Hi; reflexivity|]. split; [rewrite Hi; reflexivity|].
  split.
  - rewrite He.
    destruct (handleStoppedInstance_calls i1 (set_ticks (S (S (ticks w2))) w2)) as [_ Hr].
    rewrite Hr. cbn [provider set_ticks]. rewrite Hp2. reflexivity.
  - intros Hw Hsome. rewrite He, handleStoppedInstance_stored.
    cbn [provider storage set_ticks]. rewrite Hp2.
    change (provider queried) with p'. change (ID i1) with (ID i).
    change (stored (set_ticks (S (S (ticks w2))) w2) (ID i)) with (stored w2 (ID i)).
    assert (Hs2 : stored w2 (ID i) = Some i1).
    { subst w2. rewrite UpdateInstance_stored.
      change (writable (storage queried)) with (writable (storage w)).
      change (stored queried (ID i1)) with (stored w (ID i)).
      rewrite Hw, !bool_decide_eq_true_2 by (assumption || reflexivity).
      reflexivity. }
    rewrite Hs2.
    rewrite (UpdateInstance_writable i1 queried Hw : writable (storage w2) = true).
    rewrite !bool_decide_eq_true_2 by (eauto || reflexivity).
    subst final. destruct (is_nil (StartInstance (ID i) p').1); reflexivity.
Qed.

(** The action and the sync of an evaluation, as functions of the
    record, the answer of the provider and the two readings. *)
Lemma action_of_issued status i p t1 t2 :
  action_of (CallGetInstanceStatus (ID i) :: sync_calls status i ++
             act_calls status (after_sync status i) p t1 t2) =
    (if After t1 (ExpiresAt i) then
       if streq (InstanceStatus.State status) "running"
          || streq (InstanceStatus.State status) "pending"
       then ActionStop else ActionNone
     else if After (ExpiresAt i) t2
             && (streq (InstanceStatus.State status) "stopped"
                 || streq (InstanceStatus.State status) "stopping")
          then ActionStart else ActionNone).
Proof.
  unfold act_calls, sync_calls. rewrite ExpiresAt_after_sync.
  repeat match goal with
         | |- context [if ?b then _ else _] => destruct b; cbn [app]
         end; reflexivity.
Qed.

Lemma sync_of_issued status i p t1 t2 :
  sync_of (CallGetInstanceStatus (ID i) :: sync_calls status i ++
           act_calls status (after_sync status i) p t1 t2) =
    (if negb (streq (InstanceStatus.State status) (State i))
     then Some (synced status i) else None).
Proof.
  unfold act_calls, sync_calls.
  repeat match goal with
         | |- context [if ?b then _ else _] => destruct b; cbn [app]
         end; reflexivity.
Qed.

Lemma sync_world_frame status p' i w :
  let w2 := sync_world status p' i w in
  advances w w2 /\ provider w2 = p' /\
  calls w2 = calls w ++ CallGetInstanceStatus (ID i) :: sync_calls status i /\
  (negb (streq (InstanceStatus.State status) (State i)) = false ->
   ticks w2 = ticks w).
Proof.
  unfold sync_world, sync_calls. cbn zeta.
  set (queried := set_provider p' _).
  destruct (negb (streq (InstanceStatus.State status) (State i))).
  - destruct (UpdateInstance_frame (synced status i) queried) as (Ha & Hc & Hp & _).
    split; [|split; [|split]].
    + eapply advances_trans; [|exact Ha]. subst queried.
      split; [reflexivity | cbn; lia].
    + rewrite Hp. reflexivity.
    + rewrite Hc. subst queried. cbn [calls set_provider set_calls].
      rewrite <- app_assoc. reflexivity.
    + discriminate.
  - subst queried. repeat split. cbn. lia.
Qed.

(** The calls of an evaluation, with the two readings of the clock that
    decide them. *)
Lemma processInstance_issued_at i w status p' :
  terminal i = false ->
  GetInstanceStatus (ID i) (provider w) = (Ok status, p') ->
  issued i w =
    CallGetInstanceStatus (ID i) :: sync_calls status i ++
    act_calls status (after_sync status i) p'
      (expiry_reading status p' i w) (restart_reading status p' i w).
Proof.
  intros Ht Hq. apply issued_app.
  destruct (sync_world_frame status p' i w) as (_ & Hp & Hc & _).
  unfold expiry_reading, restart_reading.
  unfold processInstance. fold (terminal i). rewrite Ht.
  rewrite bind_unfold, provider_GetInstanceStatus_eq, Hq. cbn [fst snd].
  rewrite bind_unfold.
  assert (Hsync :
    (if negb (streq (InstanceStatus.State status) (State i))
     then bind (UpdateInstance
                  (set_PrivateIP (InstanceStatus.PrivateIP status)
                     (set_PublicIP (InstanceStatus.PublicIP status)
                        (set_State (InstanceStatus.State status) i))))
            (fun _ => ret
                  (set_PrivateIP (InstanceStatus.PrivateIP status)
                     (set_PublicIP (InstanceStatus.PublicIP status)
                        (set_State (InstanceStatus.State status) i))))
     else ret i)
      (set_provider p' (set_calls (calls w ++ [CallGetInstanceStatus (ID i)]) w)) =
    (after_sync status i, sync_world status p' i w)).
  { unfold after_sync, sync_world. cbn zeta. fold (synced status i).
    destruct (negb _).
    - apply injective_projections; cbn [fst snd];
        [apply bind_ret_fst | apply bind_ret_snd].
    - reflexivity. }
  rewrite Hsync. cbn [fst snd]. clear Hsync.
  generalize dependent (sync_world status p' i w). intros w2 Hp Hc.
  set (i1 := after_sync status i).
  unfold IsExpired, act_calls. rewrite !bind_unfold. unfold ret.
  cbn [fst snd time_Now].
  destruct (After (clock w2 (ticks w2)) (ExpiresAt i1)).
  - destruct (streq (InstanceStatus.State status) "running"
              || streq (InstanceStatus.State status) "pending").
    + destruct (handleExpiredInstance_calls i1 (set_ticks (S (ticks w2)) w2)) as [Hh _].
      rewrite Hh. cbn [calls provider set_ticks]. rewrite Hc, Hp.
      rewrite <- app_assoc. reflexivity.
    + cbn. rewrite Hc, app_nil_r. reflexivity.
  - rewrite bind_unfold. cbn [fst snd time_Now set_ticks ticks clock].
    match goal with |- context [if ?b then handleStoppedInstance _ else _] =>
      destruct b end.
    + match goal with |- context [handleStoppedInstance i1 ?w] =>
        destruct (handleStoppedInstance_calls i1 w) as [Hh _] end.
      rewrite Hh. cbn [calls provider set_ticks]. rewrite Hc, Hp.
      rewrite <- app_assoc. reflexivity.
    + cbn. rewrite Hc, app_nil_r. reflexivity.
Qed.

(** C3 (as the code has it): for a non-terminal record whose live state
    is running or pending, the decision is Stop exactly when the time
    that [IsExpired] reads is strictly after expiresAt, and None
    otherwise, the boundary now = expiresAt included.  That time is the
    reading of the clock taken by the expiry check itself, after the
    status query and the sync write: the first reading from the world
    of the evaluation on when the state has not drifted.  When the
    decision is Stop, the calls are the status query, the sync write if
    the state drifted, and the stop; when it is None, the status query
    and the sync write if the state drifted, and nothing else, whatever
    the clock shows afterwards. *)
Theorem C3_strictly_expired_is_stopped i w status p' :
  terminal i = false ->
  GetInstanceStatus (ID i) (provider w) = (Ok status, p') ->
  InstanceStatus.State status = "running" \/ InstanceStatus.State status = "pending" ->
  let now := expiry_reading status p' i w in
  now = clock w (ticks (sync_world status p' i w)) /\
  (ticks w <= ticks (sync_world status p' i w))%nat /\
  (InstanceStatus.State status = State i -> now = clock w (ticks w)) /\
  action_of (issued i w) =
    (if bool_decide (ExpiresAt i < now) then ActionStop else ActionNone) /\
  (ExpiresAt i < now ->
   issued i w =
     CallGetInstanceStatus (ID i) :: sync_calls status i ++
     stop_calls (after_sync status i) p') /\
  (now <= ExpiresAt i ->
   issued i w = CallGetInstanceStatus (ID i) :: sync_calls status i).
Proof.
  intros Ht Hq Hlive now.
  pose proof (processInstance_issued_at i w status p' Ht Hq) as Hi.
  fold now in Hi.
  destruct (sync_world_frame status p' i w) as ((Hclk & Htk) & _ & _ & Hsame).
  assert (Hnow : now = clock w (ticks (sync_world status p' i w))).
  { subst now. unfold expiry_reading. cbn [fst time_Now]. rewrite Hclk. reflexivity. }
  assert (Hrun : streq (InstanceStatus.State status) "running"
                 || streq (InstanceStatus.State status) "pending" = true).
  { destruct Hlive as [-> | ->]; reflexivity. }
  assert (Hnot : streq (InstanceStatus.State status) "stopped"
                 || streq (InstanceStatus.State status) "stopping" = false).
  { destruct Hlive as [-> | ->]; reflexivity. }
  split; [exact Hnow|]. split; [exact Htk|]. split; [|split; [|split]].
  - intros Heq. rewrite Hnow, Hsame; [reflexivity|].
    apply negb_false_iff, bool_decide_eq_true_2. exact Heq.
  - rewrite Hi, action_of_issued. unfold After. rewrite Hrun, Hnot, andb_false_r.
    reflexivity.
  - intros Hpast. rewrite Hi. unfold act_calls.
    rewrite ExpiresAt_after_sync, After_true, Hrun by exact Hpast. reflexivity.
  - intros Hnotyet. rewrite Hi. unfold act_calls.
    rewrite ExpiresAt_after_sync, After_false, Hnot, andb_false_r by exact Hnotyet.
    rewrite app_nil_r. reflexivity.
Qed.

(** C9: the action of an evaluation depends on the record, the status
    the provider reports and the time only.  Two evaluations of the same
    record, in worlds that may differ in everything else (stored file,
    calls made so far, [lastReload], what stands behind the provider),
    that get the same answer to the status query and read the same time,
    decide the same action and the same sync. *)
Theorem C9_decision_deterministic i (w1 w2 : @World P) now :
  (GetInstanceStatus (ID i) (provider w1)).1 =
    (GetInstanceStatus (ID i) (provider w2)).1 ->
  during w1 (eq now) -> during w2 (eq now) ->
  action_of (issued i w1) = action_of (issued i w2) /\
  sync_of (issued i w1) = sync_of (issued i w2).
Proof.
  intros Hq Hn1 Hn2.
  destruct (terminal i) eqn:Ht.
  { assert (Hi : forall w, issued i w = []).
    { intros w. apply issued_app. rewrite (processInstance_terminal i w Ht).
      cbn. rewrite app_nil_r. reflexivity. }
    rewrite !Hi. split; reflexivity. }
  destruct (GetInstanceStatus (ID i) (provider w1)) as [r1 p1] eqn:Hq1.
  destruct (GetInstanceStatus (ID i) (provider w2)) as [r2 p2] eqn:Hq2.
  cbn in Hq. subst r2. destruct r1 as [status|e].
  - destruct (processInstance_issued i w1 status p1 Ht Hq1) as (n1 & Hle1 & ->).
    destruct (processInstance_issued i w2 status p2 Ht Hq2) as (n2 & Hle2 & ->).
    rewrite !action_of_issued, !sync_of_issued.
    rewrite <- (Hn1 n1), <- (Hn1 (S n1)), <- (Hn2 n2), <- (Hn2 (S n2)) by lia.
    split; reflexivity.
  - assert (Hi1 : issued i w1 = [CallGetInstanceStatus (ID i)]).
    { apply issued_app. rewrite (processInstance_query_fails i w1 e p1 Ht Hq1).
      reflexivity. }
    assert (Hi2 : issued i w2 = [CallGetInstanceStatus (ID i)]).
    { apply issued_app. rewrite (processInstance_query_fails i w2 e p2 Ht Hq2).
      reflexivity. }
    rewrite Hi1, Hi2. split; reflexivity.
Qed.

(** *** Stopping an expired instance *)

Lemma handleExpiredInstance_stored i w k :
  stored (handleExpiredInstance i w).2 k =
    if is_nil (StopInstance (ID i) (provider w)).1
       && (writable (storage w) && bool_decide (is_Some (stored w (ID i)))
           && bool_decide (k = ID i))
    then Some (set_State "stopping" i) else stored w k.
Proof.
  unfold handleExpiredInstance.
  rewrite bind_unfold.
  change (time_Since (ExpiresAt i) w).2 with (set_ticks (S (ticks w)) w).
  rewrite bind_unfold, provider_StopInstance_eq. cbn [fst snd provider set_ticks].
  destruct (is_nil (StopInstance (ID i) (provider w)).1); cbn [andb].
  - rewrite bind_ret_snd, UpdateInstance_stored. reflexivity.
  - reflexivity.
Qed.

Lemma handleExpiredInstance_storage_on_failure i w :
  is_nil (StopInstance (ID i) (provider w)).1 = false ->
  storage (handleExpiredInstance i w).2 = storage w.
Proof.
  intros He. unfold handleExpiredInstance.
  rewrite bind_unfold.
  change (time_Since (ExpiresAt i) w).2 with (set_ticks (S (ticks w)) w).
  rewrite bind_unfold, provider_StopInstance_eq. cbn [fst snd provider set_ticks].
  rewrite He. reflexivity.
Qed.

(** C7: the stop of an expired record.  If the stop call of the provider
    succeeds, the record gets the state stopping and is handed to the
    store, which then holds it under its id (when a record was there and
    the file can be written); if the stop call fails, the record is
    returned as it was, no write follows the failed call and the backing
    file is as before. *)
Theorem C7_stop_outcome i w :
  let r := handleExpiredInstance i w in
  if is_nil (StopInstance (ID i) (provider w)).1 then
    r.1 = set_State "stopping" i /\
    State r.1 = "stopping" /\
    calls r.2 = calls w ++ [CallStopInstance (ID i);
                            CallUpdateInstance (set_State "stopping" i)] /\
    forall k, stored r.2 k =
      if writable (storage w) && bool_decide (is_Some (stored w (ID i)))
         && bool_decide (k = ID i)
      then Some (set_State "stopping" i) else stored w k
  else
    r.1 = i /\
    calls r.2 = calls w ++ [CallStopInstance (ID i)] /\
    storage r.2 = storage w.
Proof.
  cbn zeta.
  destruct (handleExpiredInstance_calls i w) as [Hc Hr].
  pose proof (handleExpiredInstance_stored i w) as Hs.
  pose proof (handleExpiredInstance_storage_on_failure i w) as Hf.
  unfold stop_calls in Hc.
  destruct (is_nil (StopInstance (ID i) (provider w)).1).
  - rewrite Hr. repeat split; [exact Hc|]. intros k. rewrite Hs. reflexivity.
  - repeat split; [exact Hr | exact Hc | apply Hf; reflexivity].
Qed.

(** *** The pass never terminates an instance *)

Lemma getInstancesWithReload_frame w :
  let r := getInstancesWithReload w in
  calls r.2 = calls w /\ storage r.2 = storage w /\ provider r.2 = provider w /\
  r.1 = (ListInstances w).1.
Proof.
  unfold getInstancesWithReload, time_Since, time_Now, ListInstances, loadData,
    bind, ret. cbn.
  destruct (bool_decide _); cbn; destruct (file (storage w)); cbn; auto.
Qed.

Lemma range_instances_calls l w :
  exists cs, calls (range_instances l w).2 = calls w ++ cs /\
             Forall (fun c => is_terminate c = false) cs.
Proof.
  revert w. induction l as [|i l IH]; intros w.
  - exists []. cbn. rewrite app_nil_r. auto.
  - cbn [range_instances]. rewrite bind_unfold.
    destruct (rtc_touch_calls _ _ _ _ (processInstance_touch i w)) as (cs1 & Hc1 & Hf1).
    destruct (IH (processInstance i w).2) as (cs2 & Hc2 & Hf2).
    exists (cs1 ++ cs2). rewrite Hc2, Hc1, app_assoc. split; [reflexivity|].
    apply Forall_app; auto.
Qed.

(** C8: no call to [TerminateInstance] is among the calls of a
    reconciliation: not in the evaluation of any record, not in the loop
    over any list of records in any order, and not in a whole pass, in
    every world and for every provider. *)
Theorem C8_pass_never_terminates w (l : list Instance) :
  (exists cs, calls (range_instances l w).2 = calls w ++ cs /\
              Forall (fun c => is_terminate c = false) cs) /\
  (exists cs, calls (RunOnce w).2 = calls w ++ cs /\
              Forall (fun c => is_terminate c = false) cs) /\
  (forall i, Forall (fun c => is_terminate c = false) (issued i w)).
Proof.
  split; [apply range_instances_calls|]. split.
  - unfold RunOnce, processInstances. rewrite bind_unfold.
    destruct (getInstancesWithReload_frame w) as (Hc & _ & _ & _).
    destruct (getInstancesWithReload w) as [[instances err] w1].
    cbn [fst snd] in *. rewrite <- Hc.
    destruct (is_nil err); [apply range_instances_calls|].
    exists []. unfold ret. cbn. rewrite app_nil_r. auto.
  - intros i.
    destruct (rtc_touch_calls _ _ _ _ (processInstance_touch i w)) as (cs & Hc & Hf).
    rewrite (issued_app i w cs Hc). exact Hf.
Qed.

(** *** The expiry of a stored record *)

Lemma SaveInstance_eq i w :
  SaveInstance i w =
    let data := match file (storage w) with
                | Stored data => Instances data
                | _ => ∅
                end in
    let cs := calls w ++ [CallSaveInstance i] in
    if writable (storage w) then
      (NoError,
       mkWorld (provider w)
         (mkFileStorage
            (Stored (mkStorageRecord
                       (<[ID i := mkInstanceRecord i (clock w (ticks w))
                                    (clock w (S (ticks w)))]> data)
                       (clock w (S (S (ticks w)))))) true)
         (clock w) (S (S (S (ticks w)))) (lastReload w) cs)
    else
      (ErrWriteFile,
       mkWorld (provider w) (storage w) (clock w) (S (S (S (ticks w))))
         (lastReload w) cs).
Proof.
  unfold SaveInstance, bind, record_call, time_Now, loadData, saveData, ret.
  destruct (file (storage w)) as [| | |data] eqn:Hf; simpl; rewrite Hf; simpl;
    destruct (writable (storage w)); reflexivity.
Qed.

Lemma SaveInstance_stored i w k :
  stored (SaveInstance i w).2 k =
    if writable (storage w) && bool_decide (k = ID i) then Some i else stored w k.
Proof.
  rewrite SaveInstance_eq. unfold stored. cbn zeta.
  destruct (writable (storage w)); cbn [snd storage file Instances andb];
    [|reflexivity].
  case_bool_decide as Hk.
  - subst k. rewrite lookup_insert_eq. reflexivity.
  - rewrite lookup_insert_ne by congruence.
    destruct (file (storage w)); rewrite ?lookup_empty; reflexivity.
Qed.

Lemma GetInstance_eq id w :
  GetInstance id w =
    (match file (storage w) with
     | Unreadable => Fail ErrReadFile
     | Malformed => Fail ErrUnmarshal
     | _ => match stored w id with
            | Some i => Ok i
            | None => Fail (ErrNotFound id)
            end
     end, w).
Proof.
  unfold GetInstance, bind, loadData, ret, stored.
  destruct (file (storage w)) as [| | |data]; try reflexivity.
  cbn. destruct (Instances data !! id); reflexivity.
Qed.

Lemma range_instances_stored_expiry l w :
  Forall (fun i => forall e0, stored_expiry w (ID i) = Some e0 -> e0 = ExpiresAt i) l ->
  forall k, stored_expiry (range_instances l w).2 k = stored_expiry w k.
Proof.
  revert w. induction l as [|i l IH]; intros w Hl k; [reflexivity|].
  cbn [range_instances]. rewrite bind_unfold.
  inversion Hl as [|? ? Hi Hl']; subst.
  pose proof (rtc_touch_stored_expiry _ _ _ _ Hi (processInstance_touch i w)) as H1.
  rewrite IH, H1; [reflexivity|].
  eapply Forall_impl; [exact Hl'|]. cbn. intros j Hj e0. rewrite H1. apply Hj.
Qed.

Lemma ListInstances_stored w :
  keyed w ->
  Forall (fun i => stored w (ID i) = Some i) (ListInstances w).1.1.
Proof.
  intros Hk. apply Forall_forall. intros i Hin.
  unfold ListInstances, loadData, bind, ret in Hin.
  pose proof (Hk) as Hk'. unfold keyed, stored in Hk'. unfold stored.
  destruct (file (storage w)) as [| | |data]; cbn in Hin;
    try (rewrite ?map_to_list_empty in Hin; cbn in Hin; inversion Hin; fail).
  apply list_elem_of_In, in_map_iff in Hin. destruct Hin as ([k r] & <- & Hin).
  apply list_elem_of_In, elem_of_map_to_list in Hin. cbn in *.
  specialize (Hk' k (Instance_ r)). rewrite Hin in Hk'. cbn in Hk'.
  rewrite Hk' by reflexivity. rewrite Hin. reflexivity.
Qed.

Lemma RunOnce_stored_expiry w :
  keyed w -> forall k, stored_expiry (RunOnce w).2 k = stored_expiry w k.
Proof.
  intros Hk k. unfold RunOnce, processInstances. rewrite bind_unfold.
  pose proof (ListInstances_stored w Hk) as Hl.
  destruct (getInstancesWithReload_frame w) as (_ & Hs & _ & Hr).
  assert (Hse : forall k, stored_expiry (getInstancesWithReload w).2 k = stored_expiry w k).
  { intros k'. unfold stored_expiry, stored. rewrite Hs. reflexivity. }
  rewrite <- Hr in Hl.
  destruct (getInstancesWithReload w) as [[instances err] w1]. cbn [fst snd] in *.
  destruct (is_nil err); [|apply Hse].
  rewrite range_instances_stored_expiry; [apply Hse|].
  eapply Forall_impl; [exact Hl|]. cbn. intros i Hi e0. rewrite Hse.
  unfold stored_expiry. rewrite Hi. cbn. congruence.
Qed.

Lemma stored_expiry_frame w w' :
  storage w' = storage w -> forall k, stored_expiry w' k = stored_expiry w k.
Proof. intros Hs k. unfold stored_expiry, stored. rewrite Hs. reflexivity. Qed.

Lemma stored_GetInstance id w i :
  (GetInstance id w).1 = Ok i -> stored w id = Some i.
Proof.
  rewrite GetInstance_eq. cbn [fst].
  destruct (file (storage w)); try discriminate;
    destruct (stored w id); congruence.
Qed.

(** What an extension does to the store: nothing, or it saves the record
    found under the requested id with its expiry moved by the parsed
    duration. *)
Lemma handleExtendInstance_shape r w :
  (forall k, stored (handleExtendInstance r w).2 k = stored w k) \/
  exists instance req d,
    Body r = Some req /\
    ParseDuration (ExtendInstanceRequest.Duration req) = Ok d /\
    stored w (instance_id r) = Some instance /\
    forall k, stored (handleExtendInstance r w).2 k =
      if bool_decide (k = ID instance)
      then Some (set_ExpiresAt (Add (ExpiresAt instance) d) instance)
      else stored w k.
Proof.
  unfold handleExtendInstance.
  destruct (negb (streq (Method r) http_MethodPost)); [left; reflexivity|].
  destruct (streq (instance_id r) ""); [left; reflexivity|].
  destruct (Body r) as [req|] eqn:Hb; [|left; reflexivity].
  destruct (ParseDuration (ExtendInstanceRequest.Duration req)) as [d|] eqn:Hp;
    [|left; reflexivity].
  rewrite bind_unfold.
  pose proof (stored_GetInstance (instance_id r) w) as Hg.
  rewrite GetInstance_eq in *. cbn [fst snd] in *.
  match goal with |- context [match ?g with Ok _ => _ | Fail _ => _ end] =>
    destruct g as [instance|] end; [|left; reflexivity].
  specialize (Hg instance eq_refl).
  set (instance' := set_ExpiresAt _ instance).
  assert (Hs : forall k, stored (bind (SaveInstance instance')
                 (fun err => if is_nil err then ret http_StatusOK
                             else ret http_StatusInternalServerError) w).2 k =
               stored (SaveInstance instance' w).2 k).
  { intros k. unfold bind. destruct (SaveInstance instance' w) as [err w'].
    destruct (is_nil err); reflexivity. }
  destruct (writable (storage w)) eqn:Hw.
  - right. exists instance, req, d. repeat split; try assumption.
    intros k. rewrite Hs, SaveInstance_stored, Hw. reflexivity.
  - left. intros k. rewrite Hs, SaveInstance_stored, Hw. reflexivity.
Qed.

(** What a stop asked for by a user does to the store: nothing, or it
    saves the record found under the requested id with a reading of the
    clock as its expiry. *)
Lemma handleStopInstance_shape r w :
  (forall k, stored (handleStopInstance r w).2 k = stored w k) \/
  exists instance n,
    (ticks w <= n)%nat /\
    stored w (instance_id r) = Some instance /\
    forall k, stored (handleStopInstance r w).2 k =
      if bool_decide (k = ID instance)
      then Some (set_ExpiresAt (clock w n) instance)
      else stored w k.
Proof.
  unfold handleStopInstance.
  destruct (negb (streq (Method r) http_MethodPost)); [left; reflexivity|].
  destruct (streq (instance_id r) ""); [left; reflexivity|].
  rewrite bind_unfold, provider_StopInstance_eq. cbn [fst snd].
  set (w1 := set_provider _ _).
  destruct (is_nil (StopInstance (instance_id r) (provider w)).1);
    [|left; reflexivity].
  rewrite bind_unfold, bind_ret_snd.
  pose proof (stored_GetInstance (instance_id r) w1) as Hg.
  rewrite GetInstance_eq in *. cbn [fst snd] in *.
  match goal with |- context [match ?g with Ok _ => _ | Fail _ => _ end] =>
    destruct g as [instance|] end; [|left; reflexivity].
  specialize (Hg instance eq_refl).
  rewrite bind_unfold, bind_ret_snd. cbn [fst snd time_Now].
  destruct (writable (storage w)) eqn:Hw.
  - right. exists instance, (ticks w). split; [lia|]. split; [exact Hg|].
    intros k. rewrite SaveInstance_stored.
    change (writable (storage (set_ticks (S (ticks w1)) w1)))
      with (writable (storage w)).
    rewrite Hw. reflexivity.
  - left. intros k. rewrite SaveInstance_stored.
    change (writable (storage (set_ticks (S (ticks w1)) w1)))
      with (writable (storage w)).
    rewrite Hw. reflexivity.
Qed.

Lemma handleExtendInstance_expiry r w k e e' :
  keyed w ->
  (forall req d, Body r = Some req ->
     ParseDuration (ExtendInstanceRequest.Duration req) = Ok d -> 0 <= d) ->
  stored_expiry w k = Some e ->
  stored_expiry (handleExtendInstance r w).2 k = Some e' ->
  e <= e'.
Proof.
  intros Hkeyed Hd. unfold stored_expiry.
  destruct (handleExtendInstance_shape r w)
    as [-> | (instance & req & d & Hb & Hp & Hg & ->)];
    [intros; assert (e' = e) by congruence; lia|].
  specialize (Hd req d Hb Hp).
  case_bool_decide as Hk; [|intros; assert (e' = e) by congruence; lia].
  subst k. rewrite (Hkeyed _ _ Hg), Hg. cbn. unfold Add.
  intros [= <-] [= <-]. lia.
Qed.

Lemma handleStopInstance_expiry r w k e e' :
  keyed w ->
  (forall e0, stored_expiry w (instance_id r) = Some e0 ->
     during w (fun now => e0 <= now)) ->
  stored_expiry w k = Some e ->
  stored_expiry (handleStopInstance r w).2 k = Some e' ->
  e <= e'.
Proof.
  intros Hkeyed Hd. unfold stored_expiry.
  destruct (handleStopInstance_shape r w)
    as [-> | (instance & n & Hn & Hg & ->)];
    [intros; assert (e' = e) by congruence; lia|].
  specialize (Hd (ExpiresAt instance)). unfold stored_expiry in Hd.
  rewrite Hg in Hd. specialize (Hd eq_refl n Hn). cbn beta in Hd.
  case_bool_decide as Hk; [|intros; assert (e' = e) by congruence; lia].
  subst k. rewrite (Hkeyed _ _ Hg), Hg. cbn.
  intros [= <-] [= <-]. lia.
Qed.

(** One operation that is forward-only does not move a stored expiry
    backward. *)
Lemma perform_expiry op w k e e' :
  keyed w ->
  forward_only op w ->
  stored_expiry w k = Some e ->
  stored_expiry (perform op w).2 k = Some e' ->
  e <= e'.
Proof.
  intros Hkeyed Hop He. destruct op as [|r|r]; cbn [perform forward_only] in *.
  - rewrite RunOnce_stored_expiry by exact Hkeyed.
    intros. assert (e' = e) by congruence. lia.
  - rewrite bind_ret_snd. apply handleExtendInstance_expiry; assumption.
  - rewrite bind_ret_snd. apply handleStopInstance_expiry; assumption.
Qed.

(** The store keeps its records under their ids. *)
Lemma keyed_frame w w' : storage w' = storage w -> keyed w -> keyed w'.
Proof. intros Hs Hk k i. unfold stored. rewrite Hs. apply Hk. Qed.

Lemma touch_keyed id e w w' : touch id e w w' -> keyed w -> keyed w'.
Proof.
  intros Hstep Hk. destruct Hstep as [w|w t|w p|w c _ _|w i _ _];
    try (eapply keyed_frame; [|exact Hk]; reflexivity).
  intros k j. rewrite UpdateInstance_stored.
  destruct (writable (storage w)); cbn [andb]; [|apply Hk].
  case_bool_decide; cbn [andb]; [|apply Hk].
  case_bool_decide; [|apply Hk]. congruence.
Qed.

Lemma rtc_touch_keyed id e w w' : rtc (touch id e) w w' -> keyed w -> keyed w'.
Proof.
  induction 1 as [|w1 w2 w3 Hstep _ IH]; [auto|].
  intros Hk. apply IH. eapply touch_keyed; eassumption.
Qed.

Lemma range_instances_keyed l w : keyed w -> keyed (range_instances l w).2.
Proof.
  revert w. induction l as [|i l IH]; intros w Hk; [exact Hk|].
  cbn [range_instances]. rewrite bind_unfold. apply IH.
  eapply rtc_touch_keyed; [apply processInstance_touch | exact Hk].
Qed.

Lemma perform_keyed op w : keyed w -> keyed (perform op w).2.
Proof.
  intros Hk. destruct op as [|r|r]; cbn [perform].
  - unfold RunOnce, processInstances. rewrite bind_unfold.
    destruct (getInstancesWithReload_frame w) as (_ & Hs & _ & _).
    pose proof (keyed_frame _ _ Hs Hk) as Hk1.
    destruct (getInstancesWithReload w) as [[instances err] w1]. cbn [fst snd] in *.
    destruct (is_nil err); [apply range_instances_keyed; exact Hk1 | exact Hk1].
  - rewrite bind_ret_snd. intros k j.
    destruct (handleExtendInstance_shape r w)
      as [-> | (instance & req & d & _ & _ & _ & ->)]; [apply Hk|].
    case_bool_decide; [|apply Hk]. intros [= <-]. subst k. reflexivity.
  - rewrite bind_ret_snd. intros k j.
    destruct (handleStopInstance_shape r w)
      as [-> | (instance & n & _ & _ & ->)]; [apply Hk|].
    case_bool_decide; [|apply Hk]. intros [= <-]. subst k. reflexivity.
Qed.

(** A stored record stays stored. *)
Lemma perform_stored_expiry_some op w k e :
  keyed w ->
  stored_expiry w k = Some e ->
  is_Some (stored_expiry (perform op w).2 k).
Proof.
  intros Hk He. destruct op as [|r|r]; cbn [perform].
  - rewrite RunOnce_stored_expiry by exact Hk. eauto.
  - rewrite bind_ret_snd. unfold stored_expiry in *.
    destruct (handleExtendInstance_shape r w)
      as [-> | (instance & req & d & _ & _ & _ & ->)]; [eauto|].
    case_bool_decide; cbn; eauto.
  - rewrite bind_ret_snd. unfold stored_expiry in *.
    destruct (handleStopInstance_shape r w)
      as [-> | (instance & n & _ & _ & ->)]; [eauto|].
    case_bool_decide; cbn; eauto.
Qed.

(** The stop asked for by a user, with the reading of the clock it
    stores: the first one from the world of the request on. *)
Lemma handleStopInstance_shape_now r w :
  (forall k, stored (handleStopInstance r w).2 k = stored w k) \/
  exists instance,
    stored w (instance_id r) = Some instance /\
    forall k, stored (handleStopInstance r w).2 k =
      if bool_decide (k = ID instance)
      then Some (set_ExpiresAt (clock w (ticks w)) instance)
      else stored w k.
Proof.
  unfold handleStopInstance.
  destruct (negb (streq (Method r) http_MethodPost)); [left; reflexivity|].
  destruct (streq (instance_id r) ""); [left; reflexivity|].
  rewrite bind_unfold, provider_StopInstance_eq. cbn [fst snd].
  set (w1 := set_provider _ _).
  destruct (is_nil (StopInstance (instance_id r) (provider w)).1);
    [|left; reflexivity].
  rewrite bind_unfold, bind_ret_snd.
  pose proof (stored_GetInstance (instance_id r) w1) as Hg.
  rewrite GetInstance_eq in *. cbn [fst snd] in *.
  match goal with |- context [match ?g with Ok _ => _ | Fail _ => _ end] =>
    destruct g as [instance|] end; [|left; reflexivity].
  specialize (Hg instance eq_refl).
  rewrite bind_unfold, bind_ret_snd. cbn [fst snd time_Now].
  destruct (writable (storage w)) eqn:Hw.
  - right. exists instance. split; [exact Hg|].
    intros k. rewrite SaveInstance_stored.
    change (writable (storage (set_ticks (S (ticks w1)) w1)))
      with (writable (storage w)).
    rewrite Hw. reflexivity.
  - left. intros k. rewrite SaveInstance_stored.
    change (writable (storage (set_ticks (S (ticks w1)) w1)))
      with (writable (storage w)).
    rewrite Hw. reflexivity.
Qed.

Lemma perform_all_expiry ops w k e :
  keyed w ->
  all_forward ops w ->
  stored_expiry w k = Some e ->
  exists e', stored_expiry (perform_all ops w).2 k = Some e' /\ e <= e'.
Proof.
  revert w e. induction ops as [|op ops IH]; intros w e Hk Hall He.
  - exists e. split; [exact He | lia].
  - destruct Hall as [Hop Hall]. cbn [perform_all]. rewrite bind_unfold.
    destruct (perform_stored_expiry_some op w k e Hk He) as [e1 He1].
    pose proof (perform_expiry op w k e e1 Hk Hop He He1) as Hle.
    destruct (IH (perform op w).2 e1 (perform_keyed op w Hk) Hall He1)
      as (e' & He' & Hle').
    exists e'. split; [exact He' | lia].
Qed.

(** C5 (as the code has it): over every sequence of complete
    reconciliation passes, lease extensions by a duration that is not
    negative, and stops asked for by a user once the lease is over, run
    one after the other on a store that keeps its records under their
    ids, a stored expiresAt never moves backward: the record is still
    stored at the end, with an expiresAt at or after the one it started
    with.  Operation by operation: a pass leaves the stored expiresAt as
    it is; an extension leaves it as it is or, for the record it names,
    adds the parsed duration to it; a stop by a user leaves it as it is
    or, for the record it names, writes the time it reads first,
    whatever the lease. *)
Theorem C5_expiry_moves_forward ops w k e :
  keyed w ->
  all_forward ops w ->
  stored_expiry w k = Some e ->
  (exists e', stored_expiry (perform_all ops w).2 k = Some e' /\ e <= e') /\
  stored_expiry (RunOnce w).2 k = Some e /\
  (forall r,
     stored_expiry (handleExtendInstance r w).2 k = Some e \/
     exists req d,
       Body r = Some req /\
       ParseDuration (ExtendInstanceRequest.Duration req) = Ok d /\
       instance_id r = k /\
       stored_expiry (handleExtendInstance r w).2 k = Some (Add e d)) /\
  (forall r,
     stored_expiry (handleStopInstance r w).2 k = Some e \/
     instance_id r = k /\
     stored_expiry (handleStopInstance r w).2 k = Some (clock w (ticks w))).
Proof.
  intros Hk Hall He.
  split; [exact (perform_all_expiry ops w k e Hk Hall He)|].
  split; [rewrite RunOnce_stored_expiry by exact Hk; exact He|].
  split; intros r; unfold stored_expiry in *.
  - destruct (handleExtendInstance_shape r w)
      as [-> | (instance & req & d & Hb & Hp & Hg & ->)]; [left; exact He|].
    case_bool_decide as Hid; [|left; exact He].
    right. exists req, d. subst k. pose proof (Hk _ _ Hg) as Hkey.
    rewrite Hkey, Hg in He. injection He as <-.
    repeat split; auto.
  - destruct (handleStopInstance_shape_now r w)
      as [-> | (instance & Hg & ->)]; [left; exact He|].
    case_bool_decide as Hid; [|left; exact He].
    right. subst k. pose proof (Hk _ _ Hg) as Hkey. split; [auto|reflexivity].
Qed.

End Properties.

(** ** The properties at sample inputs *)

Lemma C1_drift_sync_then_start_witness :
  let i := sample_instance "r2" "running" 100 in
  let w := scene "stopped" i 50 in
  let status := sample_status "r2" "stopped" "1.2.3.4" in
  (State i = "running" /\
   GetInstanceStatus (ID i) (provider w) = (Ok status, provider w) /\
   InstanceStatus.State status = "stopped" /\
   during w (fun now => now < ExpiresAt i)) /\
  issued i w =
    [CallGetInstanceStatus "r2"; CallUpdateInstance (synced status i);
     CallStartInstance "r2";
     CallUpdateInstance (set_State "pending" (synced status i))] /\
  action_of (issued i w) = ActionStart /\
  stored (processInstance i w).2 "r2" = Some (set_State "pending" (synced status i)).
Proof.
  intros i w status.
  assert (Hs : State i = "running") by reflexivity.
  assert (Hq : GetInstanceStatus (ID i) (provider w) = (Ok status, provider w))
    by reflexivity.
  assert (Hl : InstanceStatus.State status = "stopped") by reflexivity.
  assert (Hd : during w (fun now => now < ExpiresAt i)).
  { intros n _. cbn. lia. }
  destruct (C1_drift_sync_then_start i w status (provider w) Hs Hq Hl Hd)
    as (_ & Hi & _ & Ha & _ & Hst).
  split; [repeat split; assumption|].
  split; [rewrite Hi; reflexivity|]. split; [exact Ha|].
  apply Hst; [reflexivity | eexists; reflexivity].
Defined.

(** C2, at an input the scheduler can meet: the record is stored as
    running without a public address, the provider reports running with
    the address 1.2.3.4, the lease has not expired.  The addresses
    differ, and yet the evaluation issues the status query only: no
    [UpdateInstance], the record and the backing file stay as they
    were, without the live address. *)
Theorem C2_address_drift_is_not_synced :
  let i := sample_instance "i-1" "running" 100 in
  let w := scene "running" i 50 in
  (GetInstanceStatus (ID i) (provider w)).1 =
    Ok (sample_status "i-1" "running" "1.2.3.4") /\
  State i = "running" /\ PublicIP i = "" /\
  issued i w = [CallGetInstanceStatus "i-1"] /\
  sync_of (issued i w) = None /\
  (processInstance i w).1 = i /\
  storage (processInstance i w).2 = storage w /\
  stored (processInstance i w).2 "i-1" = Some i.
Proof.
  cbn zeta. repeat split; reflexivity.
Qed.

(** C3 as stated fails at the boundary: a running record whose
    expiresAt equals every reading of the clock is not stopped. *)
Lemma C3_counterexample_at_boundary :
  ~ (forall (i : Instance) (w : @World Mock) status p',
       terminal i = false ->
       GetInstanceStatus (ID i) (provider w) = (Ok status, p') ->
       InstanceStatus.State status = "running"
       \/ InstanceStatus.State status = "pending" ->
       during w (fun now => ExpiresAt i <= now) ->
       action_of (issued i w) = ActionStop).
Proof.
  intros Hclaim.
  pose (i := sample_instance "r1" "running" 100).
  pose (w := scene "running" i 100).
  assert (Hq : GetInstanceStatus (ID i) (provider w)
               = (Ok (sample_status "r1" "running" "1.2.3.4"), provider w))
    by reflexivity.
  assert (Hd : during w (fun now => ExpiresAt i <= now)).
  { intros n _. cbn. lia. }
  specialize (Hclaim i w _ _ eq_refl Hq (or_introl eq_refl) Hd).
  vm_compute in Hclaim. discriminate.
Qed.

(** C3 at two inputs.  Under a clock that reads 100 and then 200, a
    running record that expires at 100 is at the boundary when the
    expiry check reads the time: the decision is None, and the status
    query is the only call.  At the time 101 it is stopped. *)
Lemma C3_strictly_expired_is_stopped_witness :
  let i := sample_instance "r1" "running" 100 in
  let status := sample_status "r1" "running" "1.2.3.4" in
  let w := scene_clock "running" i (fun n => 100 + 100 * Z.of_nat n) in
  let w' := scene "running" i 101 in
  (terminal i = false /\
   GetInstanceStatus (ID i) (provider w) = (Ok status, provider w) /\
   GetInstanceStatus (ID i) (provider w') = (Ok status, provider w') /\
   (InstanceStatus.State status = "running"
    \/ InstanceStatus.State status = "pending")) /\
  (clock w 0 = 100 /\ clock w 1 = 200 /\
   expiry_reading status (provider w) i w = 100 /\
   action_of (issued i w) = ActionNone /\
   issued i w = [CallGetInstanceStatus "r1"]) /\
  (expiry_reading status (provider w') i w' = 101 /\
   action_of (issued i w') = ActionStop /\
   issued i w' = [CallGetInstanceStatus "r1"; CallStopInstance "r1";
                  CallUpdateInstance (set_State "stopping" i)]).
Proof.
  intros i status w w'.
  assert (Ht : terminal i = false) by reflexivity.
  assert (Hq : GetInstanceStatus (ID i) (provider w) = (Ok status, provider w))
    by reflexivity.
  assert (Hq' : GetInstanceStatus (ID i) (provider w') = (Ok status, provider w'))
    by reflexivity.
  assert (Hl : InstanceStatus.State status = "running"
               \/ InstanceStatus.State status = "pending") by (left; reflexivity).
  destruct (C3_strictly_expired_is_stopped i w status (provider w) Ht Hq Hl)
    as (_ & _ & Hn & Ha & _ & Hi).
  destruct (C3_strictly_expired_is_stopped i w' status (provider w') Ht Hq' Hl)
    as (_ & _ & Hn' & Ha' & Hi' & _).
  specialize (Hn eq_refl). specialize (Hn' eq_refl).
  split; [exact (conj Ht (conj Hq (conj Hq' Hl)))|]. split.
  - split; [reflexivity|]. split; [reflexivity|]. split; [exact Hn|].
    rewrite Hn in Ha, Hi. split; [exact Ha|]. apply Hi. cbn. lia.
  - split; [exact Hn'|]. rewrite Hn' in Ha', Hi'. split; [exact Ha'|].
    apply Hi'. cbn. lia.
Defined.

Lemma C4_terminal_record_untouched_witness :
  let i := sample_instance "r3" "terminated" 100 in
  let w := scene "running" i 200 in
  (State i = "terminated" \/ State i = "terminating") /\
  processInstance i w = (i, w) /\ issued i w = [].
Proof.
  intros i w.
  assert (Ht : State i = "terminated" \/ State i = "terminating")
    by (left; reflexivity).
  destruct (C4_terminal_record_untouched i w Ht) as (Hp & Hi & _).
  split; [exact Ht|]. split; [exact Hp | exact Hi].
Defined.

(** C5 as stated fails, in three ways, each for a record whose lease
    runs until 100.  A stop asked for by a user at the time 50 stores
    the expiry 50.  An extension by the duration -1h is accepted with
    200 and stores the expiry 100 - 1h.  And a pass that has listed the
    record before an extension by 1h, and evaluates its copy of the
    record after it, writes the copy over the extended record: the
    stored expiry goes from 100 + 1h back to 100. *)
Lemma C5_counterexample_expiry_moves_back :
  ~ (forall (w : @World Mock) ops k e e',
       stored_expiry w k = Some e ->
       stored_expiry (perform_all ops w).2 k = Some e' ->
       e <= e') /\
  (let i := sample_instance "i-1" "running" 100 in
   let w := scene "running" i 50 in
   stored_expiry w "i-1" = Some 100 /\
   (handleStopInstance (post "i-1" "") w).1 = http_StatusOK /\
   stored_expiry (handleStopInstance (post "i-1" "") w).2 "i-1" = Some 50) /\
  (let i := sample_instance "i-1" "running" 100 in
   let w := scene "running" i 50 in
   ParseDuration "-1h" = Ok (- time_Hour) /\
   (handleExtendInstance (post "i-1" "-1h") w).1 = http_StatusOK /\
   stored_expiry (handleExtendInstance (post "i-1" "-1h") w).2 "i-1"
     = Some (100 - time_Hour)) /\
  (let i := sample_instance "i-1" "running" 100 in
   let w := scene "stopped" i 50 in
   let listed := (ListInstances w).1.1 in
   let w1 := (handleExtendInstance (post "i-1" "1h") w).2 in
   listed = [i] /\
   stored_expiry w1 "i-1" = Some (100 + time_Hour) /\
   stored_expiry (range_instances listed w1).2 "i-1" = Some 100).
Proof.
  split; [|split; [|split]].
  - intros Hclaim.
    specialize (Hclaim (scene "running" (sample_instance "i-1" "running" 100) 50)
                  [OpStopInstance (post "i-1" "")] "i-1" 100 50 eq_refl eq_refl).
    lia.
  - cbn zeta. repeat split; reflexivity.
  - cbn zeta. repeat split; reflexivity.
  - cbn zeta. repeat split; reflexivity.
Qed.

Lemma C5_expiry_moves_forward_witness :
  let i := sample_instance "i-1" "running" 100 in
  let w := scene "running" i 50 in
  let ops := [OpRunOnce; OpExtendInstance (post "i-1" "1h"); OpRunOnce] in
  let w' := scene "running" i 150 in
  let ops' := [OpStopInstance (post "i-1" ""); OpRunOnce] in
  ((keyed w /\ all_forward ops w /\ stored_expiry w "i-1" = Some 100) /\
   (keyed w' /\ all_forward ops' w' /\ stored_expiry w' "i-1" = Some 100)) /\
  (exists e', stored_expiry (perform_all ops w).2 "i-1" = Some e' /\ 100 <= e') /\
  (exists e', stored_expiry (perform_all ops' w').2 "i-1" = Some e' /\ 100 <= e') /\
  stored_expiry (RunOnce w).2 "i-1" = Some 100 /\
  stored_expiry (handleExtendInstance (post "i-1" "1h") w).2 "i-1"
    = Some (100 + time_Hour) /\
  stored_expiry (handleStopInstance (post "i-1" "") w').2 "i-1" = Some 150.
Proof.
  intros i w ops w' ops'.
  assert (Hk : keyed w).
  { intros k j. unfold stored, w, scene, sample_world, sample_file.
    cbn [storage file Instances].
    destruct (decide (k = ID i)) as [->|Hne].
    - rewrite lookup_singleton_eq. cbn. intros [= <-]. reflexivity.
    - rewrite lookup_singleton_ne by congruence. discriminate. }
  assert (Hk' : keyed w') by exact Hk.
  assert (Hf : all_forward ops w).
  { split; [exact I|]. split; [|cbn [all_forward forward_only]; auto].
    intros req d [= <-]. vm_compute. intros [= <-]. discriminate. }
  assert (Hf' : all_forward ops' w').
  { split; [|cbn [all_forward forward_only]; auto].
    intros e0 He0 n _. vm_compute in He0. injection He0 as <-.
    cbn. lia. }
  assert (He : stored_expiry w "i-1" = Some 100) by reflexivity.
  assert (He' : stored_expiry w' "i-1" = Some 100) by reflexivity.
  destruct (C5_expiry_moves_forward ops w "i-1" 100 Hk Hf He)
    as (Hall & Hpass & Hext & _).
  destruct (C5_expiry_moves_forward ops' w' "i-1" 100 Hk' Hf' He')
    as (Hall' & _ & _ & Hstop).
  split; [exact (conj (conj Hk (conj Hf He)) (conj Hk' (conj Hf' He')))|].
  split; [exact Hall|]. split; [exact Hall'|]. split; [exact Hpass|]. split.
  - destruct (Hext (post "i-1" "1h")) as [Hsame | (req & d & Hb & Hd & _ & Hnew)].
    + vm_compute in Hsame. discriminate.
    + injection Hb as <-. vm_compute in Hd. injection Hd as <-. exact Hnew.
  - destruct (Hstop (post "i-1" "")) as [Hsame | [_ Hnew]].
    + vm_compute in Hsame. discriminate.
    + exact Hnew.
Defined.

Lemma C6_query_failure_skips_record_witness :
  let i := sample_instance "r1" "running" 100 in
  let w := scene_down i 200 in
  GetInstanceStatus (ID i) (provider w)
    = (Fail (ErrProvider "provider unreachable"), provider w) /\
  (processInstance i w).1 = i /\
  storage (processInstance i w).2 = storage w /\
  issued i w = [CallGetInstanceStatus "r1"].
Proof.
  intros i w.
  assert (Hq : GetInstanceStatus (ID i) (provider w)
               = (Fail (ErrProvider "provider unreachable"), provider w))
    by reflexivity.
  destruct (C6_query_failure_skips_record i w _ _ Hq) as (Hr & Hs & Hi & _).
  split; [exact Hq|]. split; [exact Hr|]. split; [exact Hs | exact Hi].
Defined.

Lemma C9_decision_deterministic_witness :
  let i := sample_instance "r2" "running" 100 in
  let w1 := scene "stopped" i 50 in
  let w2 := mkWorld (provider w1) (mkFileStorage Malformed false) (fun _ => 50)
              7%nat 42 [CallTerminateInstance "other"] in
  ((GetInstanceStatus (ID i) (provider w1)).1 =
     (GetInstanceStatus (ID i) (provider w2)).1 /\
   during w1 (eq 50) /\ during w2 (eq 50)) /\
  action_of (issued i w1) = action_of (issued i w2) /\
  sync_of (issued i w1) = sync_of (issued i w2).
Proof.
  intros i w1 w2.
  assert (Hq : (GetInstanceStatus (ID i) (provider w1)).1 =
               (GetInstanceStatus (ID i) (provider w2)).1) by reflexivity.
  assert (H1 : during w1 (eq 50)) by (intros n _; reflexivity).
  assert (H2 : during w2 (eq 50)) by (intros n _; reflexivity).
  split; [repeat split; assumption|].
  exact (C9_decision_deterministic i w1 w2 50 Hq H1 H2).
Defined.

(** The vocabulary of calls is not idle: the terminate handler of the web
    server, outside the reconciliation core, does record a terminate. *)
Example handleTerminateInstance_terminates :
  let w := scene "running" (sample_instance "i-1" "running" 100) 50 in
  calls (handleTerminateInstance (post "i-1" "") w).2 =
    [CallTerminateInstance "i-1"; CallDeleteInstance "i-1"].
Proof. reflexivity. Qed.

(** The two outcomes of a stop, on the provider double. *)
Example handleExpiredInstance_stop_succeeds :
  let i := sample_instance "r1" "running" 100 in
  let r := handleExpiredInstance i (scene "running" i 200) in
  State r.1 = "stopping" /\
  stored r.2 "r1" = Some (set_State "stopping" i).
Proof. split; reflexivity. Qed.

Example handleExpiredInstance_stop_fails :
  let i := sample_instance "r1" "running" 100 in
  let r := handleExpiredInstance i (scene_down i 200) in
  r.1 = i /\ stored r.2 "r1" = Some i /\ calls r.2 = [CallStopInstance "r1"].
Proof. repeat split; reflexivity. Qed.

(** C10 as stated fails for a file that decodes with a null record,
    as the file with the one entry ["i-1": null] under [instances]:
    [ListInstances] returns neither a list nor an error, it panics. *)
Lemma C10_counterexample_null_record :
  ~ (forall f : DecodedFile,
       exists instances, ListInstances_ptr f = Returns (instances, NoError)) /\
  null_record (DStored {[ "i-1" := None ]} 0) "i-1" /\
  ListInstances_ptr (DStored {[ "i-1" := None ]} 0) = Panics.
Proof.
  assert (Hp : ListInstances_ptr (DStored {[ "i-1" := None ]} 0) = Panics).
  { unfold ListInstances_ptr, loadData_ptr.
    rewrite map_to_list_singleton. reflexivity. }
  split; [|split; [|exact Hp]].
  - intros Hclaim. destruct (Hclaim (DStored {[ "i-1" := None ]} 0)) as [l Hl].
    rewrite Hp in Hl. discriminate.
  - cbn [null_record]. apply lookup_singleton_eq.
Qed.

(** ** Properties of the rest of the code *)

Section MoreProperties.
Context {P : Type} `{CloudProvider P} `{GoRuntime} `{GoSort}.
Implicit Types (w : @World P) (i : Instance).

(** *** The file store *)

Lemma GetInstance_stored k w :
  (GetInstance k w).1 =
    match file (storage w) with
    | Unreadable => Fail ErrReadFile
    | Malformed => Fail ErrUnmarshal
    | _ => match stored w k with
           | Some i => Ok i
           | None => Fail (ErrNotFound k)
           end
    end.
Proof. rewrite GetInstance_eq. reflexivity. Qed.


(** What a save hands to the encoder: the data of the file, the saved
    instance and readings of the clock. *)
Lemma json_record_new i (t u : time_Time) :
  json_instance i = true -> json_time t = true -> json_time u = true ->
  json_record (mkInstanceRecord i t u) = true.
Proof. intros Hi Ht Hu. unfold json_record. cbn. rewrite Hi, Ht, Hu. reflexivity. Qed.

Lemma json_file_insert i (t u now : time_Time) f :
  json_instance i = true ->
  json_time t = true -> json_time u = true -> json_time now = true ->
  json_file f ->
  json_file
    (Stored (mkStorageRecord
               (<[ID i := mkInstanceRecord i t u]>
                  match f with Stored data => Instances data | _ => ∅ end)
               now)).
Proof.
  intros Hi Ht Hu Hnow Hf. split; [exact Hnow|]. intros k r. cbn [Instances].
  destruct (decide (k = ID i)) as [->|Hne].
  - rewrite lookup_insert_eq. intros [= <-]. apply json_record_new; assumption.
  - rewrite lookup_insert_ne by congruence.
    destruct f as [| | |data]; rewrite ?lookup_empty; try discriminate.
    apply Hf.
Qed.

Lemma SaveInstance_json i w :
  json_instance i = true -> json_world w -> json_world (SaveInstance i w).2.
Proof.
  intros Hi [Hd Hf]. rewrite SaveInstance_eq. cbn zeta.
  destruct (writable (storage w)); cbn [snd]; split;
    try (intros n Hn; cbn [clock ticks] in *; apply Hd; lia);
    cbn [storage file]; [|exact Hf].
  apply json_file_insert; try assumption; apply Hd; lia.
Qed.

Lemma UpdateInstance_json i w :
  json_instance i = true -> json_world w -> json_world (UpdateInstance i w).2.
Proof.
  intros Hi [Hd Hf]. rewrite UpdateInstance_eq. cbn zeta.
  destruct (file (storage w)) as [| | |data] eqn:Hfile; cbn [snd];
    try (split; [exact Hd | cbn [storage set_calls]; rewrite Hfile; exact I]).
  destruct (Instances data !! ID i) as [r|] eqn:Hl; cbn [snd];
    [|split; [exact Hd | cbn [storage set_calls]; rewrite Hfile; exact Hf]].
  assert (Hr : json_record r = true) by (apply (proj2 Hf (ID i)); exact Hl).
  destruct (writable (storage w)); cbn [snd]; split;
    try (intros n Hn; cbn [clock ticks] in *; apply Hd; lia);
    cbn [storage file]; [|rewrite Hfile; exact Hf].
  pose proof (json_file_insert i (CreatedAt r) (clock w (ticks w))
                (clock w (S (ticks w))) (Stored data) Hi) as Hins.
  apply Hins; try (apply Hd; lia); [|exact Hf].
  unfold json_record in Hr. apply andb_true_iff in Hr. destruct Hr as [Hr _].
  apply andb_true_iff in Hr. apply Hr.
Qed.

Lemma stored_json w k i :
  json_world w -> stored w k = Some i -> json_instance i = true.
Proof.
  intros [_ Hf] Hst. unfold stored in Hst.
  destruct (file (storage w)) as [| | |data]; try discriminate.
  destruct (Instances data !! k) as [r|] eqn:Hl; [|discriminate].
  injection Hst as <-. pose proof (proj2 Hf k r Hl) as Hr.
  unfold json_record in Hr. apply andb_true_iff in Hr. destruct Hr as [Hr _].
  apply andb_true_iff in Hr. apply Hr.
Qed.

Lemma set_ExpiresAt_json w k i e :
  json_world w -> stored w k = Some i -> json_time e = true ->
  json_instance (set_ExpiresAt e i) = true.
Proof.
  intros Hw Hst He. pose proof (stored_json w k i Hw Hst) as Hi.
  unfold json_instance in *. cbn. apply andb_true_iff in Hi.
  destruct Hi as [Hl _]. rewrite Hl, He. reflexivity.
Qed.


(** X2: saving over a file that cannot be read or decoded does not
    fail: the file is replaced by one that holds the saved instance and
    nothing else, so what the damaged file held is gone. *)
Theorem SaveInstance_replaces_damaged_file i w :
  file (storage w) = Unreadable \/ file (storage w) = Malformed ->
  writable (storage w) = true ->
  (SaveInstance i w).1 = NoError /\
  (ListInstances (SaveInstance i w).2).1 = ([i], NoError) /\
  forall k, (GetInstance k (SaveInstance i w).2).1 =
    if bool_decide (k = ID i) then Ok i else Fail (ErrNotFound k).
Proof.
  intros Hf Hw. rewrite SaveInstance_eq. cbn zeta. rewrite Hw.
  assert (Hd : match file (storage w) with
               | Stored data => Instances data
               | _ => ∅
               end = (∅ : gmap string InstanceRecord))
    by (destruct Hf as [-> | ->]; reflexivity).
  rewrite Hd. split; [reflexivity|]. split.
  - unfold ListInstances, loadData, bind, ret. cbn [fst snd storage file Instances].
    rewrite insert_empty, map_to_list_singleton. reflexivity.
  - intros k. rewrite GetInstance_stored. unfold stored.
    cbn [fst snd storage file Instances].
    case_bool_decide as Hk.
    + subst k. rewrite lookup_insert_eq. reflexivity.
    + rewrite lookup_insert_ne, lookup_empty by congruence. reflexivity.
Qed.


Lemma DeleteInstance_eq k w :
  DeleteInstance k w =
    let cs := calls w ++ [CallDeleteInstance k] in
    match file (storage w) with
    | Unreadable => (ErrReadFile, set_calls cs w)
    | Malformed => (ErrUnmarshal, set_calls cs w)
    | f =>
        let m := match f with Stored data => Instances data | _ => ∅ end in
        if writable (storage w) then
          (NoError,
           mkWorld (provider w)
             (mkFileStorage
                (Stored (mkStorageRecord (delete k m) (clock w (ticks w)))) true)
             (clock w) (S (ticks w)) (lastReload w) cs)
        else
          (ErrWriteFile,
           mkWorld (provider w) (storage w) (clock w) (S (ticks w))
             (lastReload w) cs)
    end.
Proof.
  unfold DeleteInstance, bind, record_call, time_Now, loadData, saveData, ret.
  destruct (file (storage w)) as [| | |data] eqn:Hf; simpl; rewrite Hf; simpl;
    try reflexivity; destruct (writable (storage w)); reflexivity.
Qed.

Lemma DeleteInstance_stored k w j :
  stored (DeleteInstance k w).2 j =
    if writable (storage w) && bool_decide (j = k) then None else stored w j.
Proof.
  rewrite DeleteInstance_eq. unfold stored. cbn zeta.
  destruct (file (storage w)) as [| | |data] eqn:Hf; cbn [snd storage set_calls];
    rewrite ?Hf; try (destruct (_ && _); reflexivity);
    destruct (writable (storage w)); cbn [snd storage file Instances andb];
    rewrite ?Hf; try reflexivity;
    (case_bool_decide as Hj;
     [subst j; rewrite lookup_delete_eq; reflexivity
     |rewrite lookup_delete_ne by congruence; rewrite ?lookup_empty; reflexivity]).
Qed.

(** X4: a record updated in place keeps the time it was created, while
    saving it anew stamps it with the time of the save: for an instance
    and a world whose times have a year from 0 to 9999, so that both
    writes hand such times only to the encoder, after [UpdateInstance] the record under the id has
    the old [CreatedAt], after [SaveInstance] it has the reading of the
    clock. *)
Theorem CreatedAt_kept_by_update_reset_by_save i w r :
  json_instance i = true ->
  json_world w ->
  record_at w (ID i) = Some r ->
  writable (storage w) = true ->
  json_world (UpdateInstance i w).2 /\
  json_world (SaveInstance i w).2 /\
  record_at (UpdateInstance i w).2 (ID i) =
    Some (mkInstanceRecord i (CreatedAt r) (clock w (ticks w))) /\
  record_at (SaveInstance i w).2 (ID i) =
    Some (mkInstanceRecord i (clock w (ticks w)) (clock w (S (ticks w)))).
Proof.
  intros Hji Hjw Hr Hw. split; [exact (UpdateInstance_json i w Hji Hjw)|].
  split; [exact (SaveInstance_json i w Hji Hjw)|].
  unfold record_at in *.
  destruct (file (storage w)) as [| | |data] eqn:Hf; try discriminate.
  rewrite UpdateInstance_eq, SaveInstance_eq. cbn zeta. rewrite Hf, Hr, Hw.
  cbn [snd storage file Instances]. rewrite !lookup_insert_eq. split; reflexivity.
Qed.


Lemma ListInstances_elem w i :
  In i (ListInstances w).1.1 <-> exists k, stored w k = Some i.
Proof.
  unfold ListInstances, loadData, bind, ret, stored, empty_StorageRecord.
  destruct (file (storage w)) as [| | |data]; cbn [fst snd Instances];
    try (rewrite ?map_to_list_empty; cbn; split; [tauto | intros [? ?]; discriminate]).
  rewrite in_map_iff. split.
  - intros ([k r] & <- & Hin).
    apply list_elem_of_In, elem_of_map_to_list in Hin.
    exists k. rewrite Hin. reflexivity.
  - intros [k Hk]. destruct (Instances data !! k) as [r|] eqn:Hl; [|discriminate].
    injection Hk as <-. exists (k, r). split; [reflexivity|].
    apply list_elem_of_In, elem_of_map_to_list. exact Hl.
Qed.

(** X6: [ListInstances] lists the store: an instance is in the list
    exactly when it is stored under some id, and in a store that keeps
    its records under their ids no id is listed twice. *)
Theorem ListInstances_lists_the_store w :
  keyed w ->
  (forall i, In i (ListInstances w).1.1 <-> exists k, stored w k = Some i) /\
  NoDup (map ID (ListInstances w).1.1).
Proof.
  intros Hk. split; [apply ListInstances_elem|].
  unfold keyed, stored in Hk.
  unfold ListInstances, loadData, bind, ret, empty_StorageRecord.
  destruct (file (storage w)) as [| | |data]; cbn [fst snd Instances];
    try (rewrite ?map_to_list_empty; constructor).
  rewrite map_map.
  rewrite (map_ext_in _ fst).
  - apply (NoDup_fst_map_to_list (Instances data)).
  - intros [k r] Hin. apply list_elem_of_In, elem_of_map_to_list in Hin.
    cbn. apply Hk. rewrite Hin. reflexivity.
Qed.

Lemma range_expired_frozen l w now :
  during w (eq now) ->
  range_expired l w =
    (List.filter (fun i => bool_decide (ExpiresAt i < now)) l,
     set_ticks (ticks w + length l) w).
Proof.
  revert w. induction l as [|i l IH]; intros w Hd.
  - cbn. unfold ret. rewrite Nat.add_0_r. destruct w; reflexivity.
  - cbn [range_expired List.filter length]. unfold IsExpired.
    rewrite !bind_unfold. unfold ret at 2. cbn [fst snd time_Now].
    rewrite IH.
    + unfold After. rewrite <- (Hd (ticks w)) by lia.
      unfold bind, ret, set_ticks. cbn.
      replace (S (ticks w + length l))%nat with (ticks w + S (length l))%nat by lia.
      destruct (bool_decide (ExpiresAt i < now)); reflexivity.
    + intros n Hn. apply Hd. cbn in Hn. lia.
Qed.

Lemma GetExpiredInstances_frozen_eq w now :
  during w (eq now) ->
  (GetExpiredInstances w).1 =
    (List.filter (fun i => bool_decide (ExpiresAt i < now)) (ListInstances w).1.1,
     NoError) /\
  storage (GetExpiredInstances w).2 = storage w /\
  calls (GetExpiredInstances w).2 = calls w.
Proof.
  intros Hd. unfold GetExpiredInstances, ListInstances, loadData.
  rewrite !bind_unfold.
  destruct (file (storage w)) as [| | |data]; cbn [fst snd].
  - rewrite bind_unfold, (range_expired_frozen _ w now Hd). unfold ret. cbn. auto.
  - unfold ret; cbn; auto.
  - unfold ret; cbn; auto.
  - rewrite bind_unfold, (range_expired_frozen _ w now Hd). unfold ret. cbn. auto.
Qed.

(** X7: [GetExpiredInstances], on a file that is missing, unreadable,
    undecodable or decodes with no record and no instance null, returns
    a nil error and writes nothing.  While the clock reads [now], the instances it
    returns are, up to their order (which Go chooses anew at every
    range over the map), the instances [ListInstances] returns whose
    expiresAt is strictly before [now]: an instance that expires
    exactly now is not among them. *)
Theorem GetExpiredInstances_frozen w now :
  during w (eq now) ->
  (exists instances,
     ListInstances_ptr (with_pointers (file (storage w))) =
       Returns (instances, NoError) /\
     instances ≡ₚ map Some (ListInstances w).1.1) /\
  (GetExpiredInstances w).1.2 = NoError /\
  (GetExpiredInstances w).1.1 ≡ₚ
    List.filter (fun i => bool_decide (ExpiresAt i < now)) (ListInstances w).1.1 /\
  Forall (fun i => ExpiresAt i < now) (GetExpiredInstances w).1.1 /\
  storage (GetExpiredInstances w).2 = storage w /\
  calls (GetExpiredInstances w).2 = calls w.
Proof.
  intros Hd. split; [apply ListInstances_ptr_of_world|].
  destruct (GetExpiredInstances_frozen_eq w now Hd) as (He & Hs & Hc).
  rewrite He. cbn [fst snd]. split; [reflexivity|]. split; [reflexivity|].
  split; [|split; assumption].
  apply Forall_forall. intros i Hi. apply list_elem_of_In, filter_In in Hi.
  destruct Hi as [_ Hi]. apply bool_decide_eq_true in Hi. exact Hi.
Qed.

(** X8: the three operations that write the file keep every record
    under its own id. *)
Theorem store_writes_keep_keyed i k w :
  keyed w ->
  keyed (SaveInstance i w).2 /\
  keyed (UpdateInstance i w).2 /\
  keyed (DeleteInstance k w).2.
Proof.
  intros Hk. split; [|split]; intros j x.
  - rewrite SaveInstance_stored.
    destruct (writable (storage w)); cbn [andb]; [|apply Hk].
    case_bool_decide; [|apply Hk]. congruence.
  - rewrite UpdateInstance_stored.
    destruct (writable (storage w)); cbn [andb]; [|apply Hk].
    case_bool_decide; cbn [andb]; [|apply Hk].
    case_bool_decide; [|apply Hk]. congruence.
  - rewrite DeleteInstance_stored.
    destruct (writable (storage w)); cbn [andb]; [|apply Hk].
    case_bool_decide; [discriminate | apply Hk].
Qed.

(** *** The methods of an instance *)

(** X9: an instance is never both ready and in need of an address; a
    running instance is ready exactly when it needs no address. *)
Theorem IsReady_excludes_NeedsIPUpdate i :
  IsReady i && NeedsIPUpdate i = false /\
  IsReady i = streq (State i) "running" && negb (NeedsIPUpdate i).
Proof.
  unfold IsReady, NeedsIPUpdate.
  destruct (streq (State i) "running"), (streq (State i) "pending"),
    (streq (PublicIP i) ""); split; reflexivity.
Qed.

(** X10: the SSH command is empty exactly when the connection string
    is, and otherwise it is the connection string after the fixed
    prefix [ssh -i ~/.ssh/id_rsa]. *)
Theorem GetSSHCommand_of_connection_string i :
  GetSSHCommand i =
    if streq (GetConnectionString i) "" then ""
    else "ssh -i ~/.ssh/id_rsa " +:+ GetConnectionString i.
Proof.
  unfold GetSSHCommand, GetConnectionString, streq.
  destruct (negb (bool_decide (PublicIP i = ""))); cbn [andb]; [|reflexivity].
  case_bool_decide as Hu; cbn [negb]; [reflexivity|].
  rewrite bool_decide_eq_false_2; [reflexivity|].
  destruct (Username i); [congruence | discriminate].
Qed.

(** *** The reconciliation pass and the store *)




Lemma same_lease_sym a b : same_lease a b -> same_lease b a.
Proof. unfold same_lease. intuition congruence. Qed.












(** *** The calls of an evaluation and of a pass *)

Lemma issued_terminal i w : terminal i = true -> issued i w = [].
Proof.
  intros Ht. apply issued_app. rewrite (processInstance_terminal i w Ht).
  cbn. rewrite app_nil_r. reflexivity.
Qed.

Lemma issued_cases i w :
  issued i w = [] \/
  issued i w = [CallGetInstanceStatus (ID i)] \/
  exists status p' n,
    (ticks w <= n)%nat /\ terminal i = false /\
    GetInstanceStatus (ID i) (provider w) = (Ok status, p') /\
    issued i w =
      CallGetInstanceStatus (ID i) :: sync_calls status i ++
      act_calls status (after_sync status i) p' (clock w n) (clock w (S n)).
Proof.
  destruct (terminal i) eqn:Ht; [left; apply issued_terminal, Ht|]. right.
  destruct (GetInstanceStatus (ID i) (provider w)) as [[status|e] p'] eqn:Hq.
  - right. destruct (processInstance_issued i w status p' Ht Hq) as (n & Hn & Hi).
    exists status, p', n. auto.
  - left. apply issued_app.
    rewrite (processInstance_query_fails i w e p' Ht Hq). reflexivity.
Qed.

Lemma ID_after_sync status i : ID (after_sync status i) = ID i.
Proof. unfold after_sync. destruct (negb _); reflexivity. Qed.

Lemma processInstance_calls i w :
  calls (processInstance i w).2 = calls w ++ issued i w.
Proof.
  destruct (rtc_touch_calls _ _ _ _ (processInstance_touch i w)) as (cs & Hc & _).
  rewrite (issued_app i w cs Hc). exact Hc.
Qed.

Lemma count_calls_app f cs1 cs2 :
  count_calls f (cs1 ++ cs2) = (count_calls f cs1 + count_calls f cs2)%nat.
Proof. unfold count_calls. rewrite List.filter_app, length_app. reflexivity. Qed.

Lemma issued_budget i w :
  Forall (fun c => call_id c = ID i) (issued i w) /\
  (count_calls is_query (issued i w) <= 1)%nat /\
  (count_calls is_action (issued i w) <= 1)%nat /\
  (count_calls is_write (issued i w) <= 2)%nat.
Proof.
  destruct (issued_cases i w) as [-> | [-> | (status & p' & n & _ & _ & _ & ->)]].
  - cbn. repeat split; auto.
  - cbn. repeat split; auto.
  - unfold sync_calls, act_calls, stop_calls, start_calls.
    rewrite !ID_after_sync.
    repeat match goal with
           | |- context [if ?b then _ else _] => destruct b; cbn [app]
           end;
      cbn; (split; [repeat constructor; try apply ID_after_sync | lia]).
Qed.

(** X13: one evaluation of a record sends the provider at most one
    status query and at most one start or stop, hands the store at most
    two writes, and every one of these calls is about the id of the
    evaluated record. *)
Theorem processInstance_call_budget i w :
  calls (processInstance i w).2 = calls w ++ issued i w /\
  Forall (fun c => call_id c = ID i) (issued i w) /\
  (count_calls is_query (issued i w) <= 1)%nat /\
  (count_calls is_action (issued i w) <= 1)%nat /\
  (count_calls is_write (issued i w) <= 2)%nat.
Proof. split; [apply processInstance_calls | apply issued_budget]. Qed.

Lemma range_instances_budget l w :
  exists cs, calls (range_instances l w).2 = calls w ++ cs /\
    Forall (fun c => exists i, In i l /\ call_id c = ID i) cs /\
    (count_calls is_query cs <= length l)%nat /\
    (count_calls is_action cs <= length l)%nat /\
    (count_calls is_write cs <= 2 * length l)%nat.
Proof.
  revert w. induction l as [|i l IH]; intros w.
  - exists []. cbn. rewrite app_nil_r. repeat split; auto.
  - cbn [range_instances]. rewrite bind_unfold.
    destruct (IH (processInstance i w).2) as (cs2 & Hc2 & Hid2 & Hq2 & Ha2 & Hw2).
    destruct (issued_budget i w) as (Hid1 & Hq1 & Ha1 & Hw1).
    exists (issued i w ++ cs2).
    rewrite Hc2, processInstance_calls, app_assoc. split; [reflexivity|].
    rewrite !count_calls_app. cbn [length]. split; [|lia].
    apply Forall_app. split.
    + eapply Forall_impl; [exact Hid1|]. intros c Hc. exists i. split; [left; reflexivity | exact Hc].
    + eapply Forall_impl; [exact Hid2|]. intros c (j & Hj & Hc). exists j.
      split; [right; exact Hj | exact Hc].
Qed.

(** X14: a reconciliation pass sends the provider at most one status
    query and at most one start or stop per listed record, and writes
    the store at most twice per listed record; every call of the pass is
    about the id of a record that [ListInstances] returned at its start. *)
Theorem RunOnce_call_budget w :
  let l := (ListInstances w).1.1 in
  exists cs, calls (RunOnce w).2 = calls w ++ cs /\
    Forall (fun c => exists i, In i l /\ call_id c = ID i) cs /\
    (count_calls is_query cs <= length l)%nat /\
    (count_calls is_action cs <= length l)%nat /\
    (count_calls is_write cs <= 2 * length l)%nat.
Proof.
  cbn zeta. unfold RunOnce, processInstances. rewrite bind_unfold.
  destruct (getInstancesWithReload_frame w) as (Hc & _ & _ & Hr).
  cbn zeta in Hc, Hr. rewrite <- Hr.
  destruct (getInstancesWithReload w) as [[l err] w1]. cbn [fst snd] in *.
  rewrite <- Hc.
  destruct (is_nil err); [apply range_instances_budget|].
  exists []. unfold ret. cbn. rewrite app_nil_r. repeat split; auto; lia.
Qed.

(** The evaluation of a record for which neither check asks for an
    action, step by step: the status query, the sync write if the state
    drifted, and the one or two readings of the clock. *)
Lemma processInstance_idle i w status p' :
  terminal i = false ->
  GetInstanceStatus (ID i) (provider w) = (Ok status, p') ->
  let queried :=
    set_provider p' (set_calls (calls w ++ [CallGetInstanceStatus (ID i)]) w) in
  let w2 :=
    if negb (streq (InstanceStatus.State status) (State i))
    then (UpdateInstance (synced status i) queried).2 else queried in
  let expired := After (clock w (ticks w2)) (ExpiresAt i) in
  (if expired
   then streq (InstanceStatus.State status) "running"
        || streq (InstanceStatus.State status) "pending"
   else After (ExpiresAt i) (clock w (S (ticks w2)))
        && (streq (InstanceStatus.State status) "stopped"
            || streq (InstanceStatus.State status) "stopping")) = false ->
  processInstance i w =
    (after_sync status i,
     set_ticks (if expired then S (ticks w2) else S (S (ticks w2))) w2).
Proof.
  intros Ht Hq queried w2 expired Hidle.
  assert (Hclk : clock w2 = clock w).
  { subst w2. destruct (negb _); [|reflexivity].
    destruct (UpdateInstance_frame (synced status i) queried) as ([Hc _] & _).
    exact Hc. }
  unfold processInstance. fold (terminal i). rewrite Ht.
  rewrite bind_unfold, provider_GetInstanceStatus_eq, Hq. cbn [fst snd].
  fold queried. rewrite bind_unfold.
  assert (Hsync :
    (if negb (streq (InstanceStatus.State status) (State i))
     then bind (UpdateInstance
                  (set_PrivateIP (InstanceStatus.PrivateIP status)
                     (set_PublicIP (InstanceStatus.PublicIP status)
                        (set_State (InstanceStatus.State status) i))))
            (fun _ => ret
                  (set_PrivateIP (InstanceStatus.PrivateIP status)
                     (set_PublicIP (InstanceStatus.PublicIP status)
                        (set_State (InstanceStatus.State status) i))))
     else ret i) queried = (after_sync status i, w2)).
  { subst w2. unfold after_sync. fold (synced status i).
    destruct (negb _).
    - apply injective_projections; cbn [fst snd];
        [apply bind_ret_fst | apply bind_ret_snd].
    - reflexivity. }
  rewrite Hsync. cbn [fst snd].
  unfold IsExpired. rewrite !bind_unfold. unfold ret at 1. cbn [fst snd time_Now].
  rewrite ExpiresAt_after_sync, Hclk. fold expired.
  destruct expired.
  - rewrite Hidle. reflexivity.
  - rewrite bind_unfold. cbn [fst snd time_Now].
    change (ret false (set_ticks (S (ticks w2)) w2)).2
      with (set_ticks (S (ticks w2)) w2).
    cbn [set_ticks ticks clock].
    rewrite Hclk, Hidle. reflexivity.
Qed.

Lemma idle_ticks_storage (b : bool) (n m : nat) w :
  storage (set_ticks (if b then n else m) w) = storage w /\
  calls (set_ticks (if b then n else m) w) = calls w.
Proof. destruct b; split; reflexivity. Qed.

(** X15: a record the provider reports as terminated (or terminating)
    is retired by one evaluation: the status query and the sync write
    are its only calls, no start and no stop is sent whatever the
    lease, the record comes back in the live state, and that record,
    which the store then holds, is skipped by every later evaluation. *)
Theorem live_terminated_retires_record i w status p' :
  terminal i = false ->
  GetInstanceStatus (ID i) (provider w) = (Ok status, p') ->
  InstanceStatus.State status = "terminated" \/
  InstanceStatus.State status = "terminating" ->
  let r := processInstance i w in
  r.1 = synced status i /\
  issued i w = [CallGetInstanceStatus (ID i); CallUpdateInstance (synced status i)] /\
  (writable (storage w) = true -> is_Some (stored w (ID i)) ->
   stored r.2 (ID i) = Some (synced status i)) /\
  forall w', processInstance r.1 w' = (r.1, w').
Proof.
  intros Ht Hq Hlive r.
  assert (Hdrift : negb (streq (InstanceStatus.State status) (State i)) = true).
  { apply negb_true_iff. apply bool_decide_eq_false_2. intros Heq.
    assert (Hterm : terminal i = true)
      by (apply terminal_spec; rewrite <- Heq; exact Hlive).
    congruence. }
  assert (Hno : forall (b : bool) t,
    (if b
     then streq (InstanceStatus.State status) "running"
          || streq (InstanceStatus.State status) "pending"
     else After (ExpiresAt i) t
          && (streq (InstanceStatus.State status) "stopped"
              || streq (InstanceStatus.State status) "stopping")) = false).
  { intros b t. destruct Hlive as [-> | ->]; destruct b; cbn;
      rewrite ?andb_false_r; reflexivity. }
  pose proof (processInstance_idle i w status p' Ht Hq) as Hp.
  cbn zeta in Hp. specialize (Hp (Hno _ _)). rewrite Hdrift in Hp.
  unfold after_sync in Hp. rewrite Hdrift in Hp.
  set (queried := set_provider p' _) in Hp.
  assert (Hr1 : r.1 = synced status i) by (subst r; rewrite Hp; reflexivity).
  split; [exact Hr1|]. split; [|split].
  - apply issued_app. rewrite Hp. cbn [snd].
    match goal with |- calls (set_ticks (if ?b then ?n else ?m) ?w2) = _ =>
      rewrite (proj2 (idle_ticks_storage b n m w2)) end.
    destruct (UpdateInstance_frame (synced status i) queried) as (_ & Hc & _).
    rewrite Hc. subst queried. cbn [calls set_provider set_calls].
    rewrite <- app_assoc. reflexivity.
  - intros Hw Hsome. subst r. rewrite Hp. cbn [snd].
    match goal with |- stored (set_ticks (if ?b then ?n else ?m) ?w2) _ = _ =>
      unfold stored at 1;
      rewrite (proj1 (idle_ticks_storage b n m w2)) end.
    fold (stored (UpdateInstance (synced status i) queried).2 (ID i)).
    rewrite UpdateInstance_stored.
    change (ID (synced status i)) with (ID i).
    change (storage queried) with (storage w).
    change (stored queried (ID i)) with (stored w (ID i)).
    rewrite Hw, (bool_decide_eq_true_2 _ Hsome), (bool_decide_eq_true_2 _ eq_refl).
    reflexivity.
  - intros w'. apply processInstance_terminal. rewrite Hr1.
    apply terminal_spec. exact Hlive.
Qed.

(** X16: the steady states of the reconciliation.  A record whose
    stored state is the live one, and that runs (or is pending) at or
    before its expiry, or is stopped (or stopping) at or after it, gets
    the status query and nothing else: no write, whatever the live
    addresses are, no action, and the record comes back as it went in. *)
Theorem steady_record_is_only_queried i w status p' :
  GetInstanceStatus (ID i) (provider w) = (Ok status, p') ->
  InstanceStatus.State status = State i ->
  ((State i = "running" \/ State i = "pending") /\
   during w (fun now => now <= ExpiresAt i)) \/
  ((State i = "stopped" \/ State i = "stopping") /\
   during w (fun now => ExpiresAt i <= now)) ->
  (processInstance i w).1 = i /\
  issued i w = [CallGetInstanceStatus (ID i)] /\
  storage (processInstance i w).2 = storage w.
Proof.
  intros Hq Hsame Hsteady.
  assert (Ht : terminal i = false).
  { unfold terminal.
    destruct Hsteady as [[[-> | ->] _] | [[-> | ->] _]]; reflexivity. }
  assert (Hdrift : negb (streq (InstanceStatus.State status) (State i)) = false).
  { apply negb_false_iff. apply bool_decide_eq_true_2. exact Hsame. }
  pose proof (processInstance_idle i w status p' Ht Hq) as Hp.
  cbn zeta in Hp. rewrite Hdrift in Hp. unfold after_sync in Hp.
  rewrite Hdrift in Hp. cbn [ticks set_provider set_calls] in Hp.
  rewrite Hsame in Hp.
  assert (Hidle :
    (if After (clock w (ticks w)) (ExpiresAt i)
     then streq (State i) "running" || streq (State i) "pending"
     else After (ExpiresAt i) (clock w (S (ticks w)))
          && (streq (State i) "stopped" || streq (State i) "stopping")) = false).
  { destruct Hsteady as [[Hst Hd] | [Hst Hd]].
    - rewrite After_false by (apply (Hd (ticks w)); lia).
      destruct Hst as [-> | ->]; cbn; apply andb_false_r.
    - rewrite (After_false (ExpiresAt i)) by (apply (Hd (S (ticks w))); lia).
      destruct Hst as [-> | ->]; destruct (After _ _); reflexivity. }
  specialize (Hp Hidle). rewrite Hp. cbn [fst snd]. split; [reflexivity|].
  split.
  - apply issued_app. rewrite Hp. cbn [snd]. destruct (After _ _); reflexivity.
  - destruct (After _ _); reflexivity.
Qed.

(** *** The web handlers *)

Lemma SaveInstance_frame i w :
  provider (SaveInstance i w).2 = provider w /\
  calls (SaveInstance i w).2 = calls w ++ [CallSaveInstance i] /\
  clock (SaveInstance i w).2 = clock w /\
  ticks (SaveInstance i w).2 = S (S (S (ticks w))) /\
  is_nil (SaveInstance i w).1 = writable (storage w) /\
  (writable (storage w) = false -> storage (SaveInstance i w).2 = storage w).
Proof.
  rewrite SaveInstance_eq. cbn zeta.
  destruct (writable (storage w)); cbn; repeat split; auto; discriminate.
Qed.


Lemma handleExtendInstance_success r w req d i :
  Method r = http_MethodPost -> instance_id r <> "" ->
  Body r = Some req ->
  ParseDuration (ExtendInstanceRequest.Duration req) = Ok d ->
  stored w (instance_id r) = Some i ->
  writable (storage w) = true ->
  handleExtendInstance r w =
    (http_StatusOK, (SaveInstance (set_ExpiresAt (Add (ExpiresAt i) d) i) w).2).
Proof.
  intros Hm Hid Hb Hd Hst Hw. unfold handleExtendInstance.
  rewrite Hm. cbn [negb streq].
  change (streq http_MethodPost http_MethodPost) with true. cbn [negb].
  unfold streq. rewrite (bool_decide_eq_false_2 _ Hid), Hb, Hd.
  rewrite bind_unfold, GetInstance_eq. cbn [fst snd].
  assert (Hg : match file (storage w) with
               | Unreadable => Fail ErrReadFile
               | Malformed => Fail ErrUnmarshal
               | _ => match stored w (instance_id r) with
                      | Some i => Ok i
                      | None => Fail (ErrNotFound (instance_id r))
                      end
               end = Ok i).
  { rewrite Hst. unfold stored in Hst.
    destruct (file (storage w)); try discriminate; reflexivity. }
  rewrite Hg, bind_unfold.
  destruct (SaveInstance_frame (set_ExpiresAt (Add (ExpiresAt i) d) i) w)
    as (_ & _ & _ & _ & Hnil & _).
  rewrite Hw in Hnil. rewrite Hnil. reflexivity.
Qed.

(** X18: extending the lease brings a stopped instance back.  After an
    extension that moves the expiry of a stored record past every later
    reading of the clock, to a time whose year is still at most 9999,
    the save hands the encoder times it encodes, the record stands in
    the store with the new expiry, and its next evaluation, when the provider reports it
    stopped or stopping, decides Start. *)
Theorem extended_lease_restarts_stopped_instance r w req d i status p' :
  json_world w ->
  json_time (Add (ExpiresAt i) d) = true ->
  Method r = http_MethodPost -> instance_id r <> "" ->
  Body r = Some req ->
  ParseDuration (ExtendInstanceRequest.Duration req) = Ok d ->
  keyed w ->
  stored w (instance_id r) = Some i ->
  writable (storage w) = true ->
  terminal i = false ->
  GetInstanceStatus (ID i) (provider w) = (Ok status, p') ->
  InstanceStatus.State status = "stopped" \/
  InstanceStatus.State status = "stopping" ->
  during w (fun now => now < Add (ExpiresAt i) d) ->
  let res := handleExtendInstance r w in
  let i1 := set_ExpiresAt (Add (ExpiresAt i) d) i in
  json_world res.2 /\
  res.1 = http_StatusOK /\
  stored res.2 (instance_id r) = Some i1 /\
  action_of (issued i1 res.2) = ActionStart.
Proof.
  intros Hjw Hje Hm Hid Hb Hd Hk Hst Hw Ht Hq Hlive Hfuture res i1.
  subst res. rewrite (handleExtendInstance_success r w req d i Hm Hid Hb Hd Hst Hw).
  cbn [fst snd]. fold i1.
  split; [apply SaveInstance_json;
          [exact (set_ExpiresAt_json w _ i _ Hjw Hst Hje) | exact Hjw]|].
  split; [reflexivity|].
  destruct (SaveInstance_frame i1 w) as (Hp & _ & Hclk & Htk & _ & _).
  split.
  - rewrite SaveInstance_stored, Hw. cbn [andb].
    rewrite bool_decide_eq_true_2; [reflexivity|].
    symmetry. apply (Hk _ _ Hst).
  - set (w1 := (SaveInstance i1 w).2) in *.
    assert (Hq1 : GetInstanceStatus (ID i1) (provider w1) = (Ok status, p'))
      by (rewrite Hp; exact Hq).
    destruct (processInstance_issued i1 w1 status p' Ht Hq1) as (n & Hn & Hi).
    rewrite Hi, action_of_issued, Hclk.
    change (ExpiresAt i1) with (Add (ExpiresAt i) d).
    rewrite After_false by (apply Z.lt_le_incl, Hfuture; lia).
    rewrite After_true by (apply Hfuture; lia).
    destruct Hlive as [-> | ->]; reflexivity.
Qed.

Lemma GetInstance_found id w i :
  stored w id = Some i -> GetInstance id w = (Ok i, w).
Proof.
  intros Hst. rewrite GetInstance_eq, Hst. unfold stored in Hst.
  destruct (file (storage w)); try discriminate; reflexivity.
Qed.

Lemma GetInstance_missing id w :
  stored w id = None -> exists e, GetInstance id w = (Fail e, w).
Proof.
  intros Hst. rewrite GetInstance_eq, Hst.
  destruct (file (storage w)); eexists; reflexivity.
Qed.

Lemma guard_passed (r : Request) :
  Method r = http_MethodPost -> instance_id r <> "" ->
  negb (streq (Method r) http_MethodPost) = false /\
  streq (instance_id r) "" = false.
Proof.
  intros Hm Hid. unfold streq. rewrite Hm.
  rewrite (bool_decide_eq_true_2 _ eq_refl), (bool_decide_eq_false_2 _ Hid).
  split; reflexivity.
Qed.

(** A stop asked for by a user, past the two checks of the request, step
    by step: the stop call, and after its success the reading of the
    record, the reading of the clock and the save. *)
Lemma handleStopInstance_run r w :
  Method r = http_MethodPost -> instance_id r <> "" ->
  let id := instance_id r in
  let wq := set_provider (StopInstance id (provider w)).2
              (set_calls (calls w ++ [CallStopInstance id]) w) in
  handleStopInstance r w =
    if is_nil (StopInstance id (provider w)).1 then
      (http_StatusOK,
       match stored w id with
       | Some i =>
           (SaveInstance (set_ExpiresAt (clock w (ticks w)) i)
              (set_ticks (S (ticks w)) wq)).2
       | None => wq
       end)
    else (http_StatusInternalServerError, wq).
Proof.
  intros Hm Hid id wq. destruct (guard_passed r Hm Hid) as [Hg1 Hg2].
  unfold handleStopInstance. rewrite Hg1, Hg2.
  rewrite bind_unfold, provider_StopInstance_eq. cbn [fst snd]. fold id. fold wq.
  destruct (is_nil (StopInstance id (provider w)).1); [|reflexivity].
  rewrite bind_unfold.
  change (stored w id) with (stored wq id).
  destruct (stored wq id) as [i|] eqn:Hst.
  - rewrite (GetInstance_found id wq i Hst). cbn [fst snd].
    rewrite !bind_unfold. cbn [fst snd time_Now]. unfold ret. cbn [fst snd].
    reflexivity.
  - destruct (GetInstance_missing id wq Hst) as [e ->]. reflexivity.
Qed.

(** X19: a stop asked for by a user is answered by the provider alone.
    A request that is not a POST, or names no id, leaves the world as it
    was.  Otherwise the stop call is the first call: if it fails the
    answer is 500 and nothing else is called or written; if it succeeds
    the answer is 200 whether or not a record is stored under the id
    and whether or not the save of the new expiry worked. *)
Theorem handleStopInstance_outcome r w :
  let res := handleStopInstance r w in
  let id := instance_id r in
  if negb (streq (Method r) http_MethodPost) || streq id "" then
    res.2 = w /\
    res.1 = (if negb (streq (Method r) http_MethodPost)
             then http_StatusMethodNotAllowed else http_StatusBadRequest)
  else
    provider res.2 = (StopInstance id (provider w)).2 /\
    exists cs,
      calls res.2 = calls w ++ CallStopInstance id :: cs /\
      if is_nil (StopInstance id (provider w)).1 then
        res.1 = http_StatusOK /\
        cs = match stored w id with
             | Some i => [CallSaveInstance (set_ExpiresAt (clock w (ticks w)) i)]
             | None => []
             end
      else
        res.1 = http_StatusInternalServerError /\ cs = [] /\
        storage res.2 = storage w.
Proof.
  cbn zeta.
  destruct (negb (streq (Method r) http_MethodPost)) eqn:Hm.
  { unfold handleStopInstance. rewrite Hm. cbn. auto. }
  destruct (streq (instance_id r) "") eqn:Hid.
  { unfold handleStopInstance. rewrite Hm, Hid. cbn. auto. }
  cbn [orb].
  apply negb_false_iff, bool_decide_eq_true in Hm.
  apply bool_decide_eq_false in Hid.
  rewrite (handleStopInstance_run r w Hm Hid). cbn zeta.
  destruct (is_nil (StopInstance (instance_id r) (provider w)).1); cbn [fst snd].
  - destruct (stored w (instance_id r)) as [i|].
    + destruct (SaveInstance_frame (set_ExpiresAt (clock w (ticks w)) i)
        (set_ticks (S (ticks w))
           (set_provider (StopInstance (instance_id r) (provider w)).2
              (set_calls (calls w ++ [CallStopInstance (instance_id r)]) w))))
        as (Hp & Hc & _).
      rewrite Hp, Hc. cbn [provider calls set_ticks set_provider set_calls].
      split; [reflexivity|]. eexists. split; [|split; reflexivity].
      rewrite <- app_assoc. reflexivity.
    + split; [reflexivity|]. exists []. repeat split.
  - split; [reflexivity|]. exists []. repeat split.
Qed.



Lemma handleTerminateInstance_run r w :
  Method r = http_MethodPost -> instance_id r <> "" ->
  let id := instance_id r in
  let wq := set_provider (TerminateInstance id (provider w)).2
              (set_calls (calls w ++ [CallTerminateInstance id]) w) in
  handleTerminateInstance r w =
    if is_nil (TerminateInstance id (provider w)).1
    then (http_StatusOK, (DeleteInstance id wq).2)
    else (http_StatusInternalServerError, wq).
Proof.
  intros Hm Hid id wq. destruct (guard_passed r Hm Hid) as [Hg1 Hg2].
  unfold handleTerminateInstance. rewrite Hg1, Hg2.
  rewrite bind_unfold, provider_TerminateInstance_eq. cbn [fst snd].
  fold id. fold wq.
  destruct (is_nil (TerminateInstance id (provider w)).1); [|reflexivity].
  apply injective_projections; cbn [fst snd];
    [apply bind_ret_fst | apply bind_ret_snd].
Qed.


Lemma range_instances_ids l w :
  exists cs, calls (range_instances l w).2 = calls w ++ cs /\
    Forall (fun c => exists i, In i l /\ call_id c = ID i) cs.
Proof.
  destruct (range_instances_budget l w) as (cs & Hc & Hid & _).
  exists cs. auto.
Qed.

(** X22: a terminated instance is left alone by the scheduler.  After
    a terminate request that the provider accepted, on a store that can
    be written, no record is stored under the id any more, and a
    reconciliation pass issues no call about that id: no status query,
    no start, no stop, no write. *)
Theorem terminated_instance_leaves_the_pass r w :
  Method r = http_MethodPost -> instance_id r <> "" ->
  keyed w ->
  writable (storage w) = true ->
  is_nil (TerminateInstance (instance_id r) (provider w)).1 = true ->
  let res := handleTerminateInstance r w in
  res.1 = http_StatusOK /\
  stored res.2 (instance_id r) = None /\
  exists cs, calls (RunOnce res.2).2 = calls res.2 ++ cs /\
    Forall (fun c => call_id c <> instance_id r) cs.
Proof.
  intros Hm Hid Hk Hw Hok res. subst res.
  rewrite (handleTerminateInstance_run r w Hm Hid). cbn zeta.
  rewrite Hok. cbn [fst snd]. split; [reflexivity|].
  set (wq := set_provider _ _).
  assert (Hgone : stored (DeleteInstance (instance_id r) wq).2 (instance_id r) = None).
  { rewrite DeleteInstance_stored.
    change (writable (storage wq)) with (writable (storage w)). rewrite Hw.
    rewrite (bool_decide_eq_true_2 _ eq_refl). reflexivity. }
  split; [exact Hgone|].
  set (w1 := (DeleteInstance (instance_id r) wq).2) in *.
  assert (Hk1 : keyed w1).
  { intros k j. subst w1. rewrite DeleteInstance_stored.
    destruct (_ && _); [discriminate|]. apply Hk. }
  unfold RunOnce, processInstances. rewrite bind_unfold.
  destruct (getInstancesWithReload_frame w1) as (Hc & _ & _ & Hr).
  cbn zeta in Hc, Hr.
  pose proof (ListInstances_stored w1 Hk1) as Hall. rewrite <- Hr in Hall.
  destruct (getInstancesWithReload w1) as [[l err] w2]. cbn [fst snd] in *.
  rewrite <- Hc.
  destruct (is_nil err).
  2:{ exists []. unfold ret. cbn. rewrite app_nil_r. auto. }
  destruct (range_instances_ids l w2) as (cs & Hcs & Hids).
  exists cs. split; [exact Hcs|].
  eapply Forall_impl; [exact Hids|]. intros c (j & Hj & Hcj) Heq.
  rewrite Forall_forall in Hall. apply list_elem_of_In in Hj.
  specialize (Hall j Hj). cbn beta in Hall.
  rewrite <- Hcj, Heq in Hall. rewrite Hgone in Hall. discriminate.
Qed.

Lemma range_sync_calls l w :
  exists cs, calls (range_sync l w).2 = calls w ++ cs /\
    Forall (fun c => is_action c = false /\ exists i, In i l /\ call_id c = ID i) cs /\
    count_calls is_query cs = length l.
Proof.
  revert w. induction l as [|i l IH]; intros w.
  - exists []. cbn. rewrite app_nil_r. auto.
  - cbn [range_sync]. rewrite bind_unfold, provider_GetInstanceStatus_eq.
    cbn [fst snd]. set (wq := set_provider _ _).
    assert (Hstep : forall m : @M P unit,
      (exists cs1, calls (m wq).2 = calls wq ++ cs1 /\
         Forall (fun c => is_action c = false /\ call_id c = ID i) cs1 /\
         count_calls is_query cs1 = 0%nat) ->
      exists cs, calls (bind m (fun _ => range_sync l) wq).2 = calls w ++ cs /\
        Forall (fun c => is_action c = false /\
                  exists j, In j (i :: l) /\ call_id c = ID j) cs /\
        count_calls is_query cs = S (length l)).
    { intros m (cs1 & Hc1 & Hf1 & Hn1). rewrite bind_unfold.
      destruct (IH (m wq).2) as (cs2 & Hc2 & Hf2 & Hn2).
      exists (CallGetInstanceStatus (ID i) :: cs1 ++ cs2).
      rewrite Hc2, Hc1. subst wq. cbn [calls set_provider set_calls].
      rewrite <- !app_assoc. split; [reflexivity|]. split.
      - constructor; [split; [reflexivity | exists i; split; [left|]; reflexivity]|].
        apply Forall_app. split.
        + eapply Forall_impl; [exact Hf1|]. intros c [Ha Hc]. split; [exact Ha|].
          exists i. split; [left; reflexivity | exact Hc].
        + eapply Forall_impl; [exact Hf2|]. intros c [Ha (j & Hj & Hc)].
          split; [exact Ha|]. exists j. split; [right; exact Hj | exact Hc].
      - change (CallGetInstanceStatus (ID i) :: cs1 ++ cs2)
          with ([CallGetInstanceStatus (ID i)] ++ cs1 ++ cs2).
        rewrite !count_calls_app, Hn1, Hn2. reflexivity. }
    destruct (GetInstanceStatus (ID i) (provider w)).1 as [status|e].
    + destruct (_ || _).
      * apply Hstep. rewrite bind_ret_snd.
        match goal with |- context [SaveInstance ?j wq] =>
          destruct (SaveInstance_frame j wq) as (_ & Hc & _);
          exists [CallSaveInstance j] end.
        split; [exact Hc|]. split; [|reflexivity]. repeat constructor.
      * apply Hstep. exists []. unfold ret. cbn. rewrite app_nil_r. auto.
    + apply Hstep. exists []. unfold ret. cbn. rewrite app_nil_r. auto.
Qed.

(** X23: the listing of the instances, on a backing file that is
    missing, unreadable, undecodable or decodes with no record and no
    instance null, answers 200 to every
    GET, whatever the provider answers: its 500 answer cannot be
    reached.  It sends the provider one status query for each record of
    the sorted list and never a start, a stop or a terminate; any other
    method gets 405 and leaves the world as it was. *)
Theorem handleInstances_outcome r w :
  let res := handleInstances r w in
  let l := sort_Slice (fun a b => After (ExpiresAt a) (ExpiresAt b))
             (ListInstances w).1.1 in
  (exists instances,
     ListInstances_ptr (with_pointers (file (storage w))) =
       Returns (instances, NoError) /\
     instances ≡ₚ map Some (ListInstances w).1.1) /\
  if negb (streq (Method r) http_MethodGet) then
    res = (http_StatusMethodNotAllowed, w)
  else
    res.1 = http_StatusOK /\
    exists cs, calls res.2 = calls w ++ cs /\
      Forall (fun c => is_action c = false /\
                exists i, In i l /\ call_id c = ID i) cs /\
      count_calls is_query cs = length l.
Proof.
  cbn zeta. split; [apply ListInstances_ptr_of_world|]. unfold handleInstances.
  destruct (negb (streq (Method r) http_MethodGet)); [reflexivity|].
  rewrite bind_unfold.
  assert (Hl : (ListInstances w).2 = w /\ (ListInstances w).1.2 = NoError).
  { unfold ListInstances, loadData, bind, ret.
    destruct (file (storage w)); cbn; auto. }
  destruct Hl as [Hw He].
  destruct (ListInstances w) as [[l err] w1]. cbn [fst snd] in *. subst w1 err.
  cbn [is_nil]. rewrite bind_ret_fst, bind_ret_snd. split; [reflexivity|].
  apply range_sync_calls.
Qed.

(** X24: the status of one instance.  An id that is not stored gets
    404 before the provider is asked; a failing status query gets 500
    and no write.  Otherwise the answer is 200, and the record is saved
    with the live state and addresses as soon as one of the three
    differs from the stored one (an address alone is enough), under the
    id the record carries. *)
Theorem handleInstanceStatus_outcome r w :
  let res := handleInstanceStatus r w in
  let id := instance_id r in
  if negb (streq (Method r) http_MethodGet) || streq id "" then
    res.2 = w /\
    res.1 = (if negb (streq (Method r) http_MethodGet)
             then http_StatusMethodNotAllowed else http_StatusBadRequest)
  else
    match stored w id with
    | None => res = (http_StatusNotFound, w)
    | Some instance =>
        provider res.2 = (GetInstanceStatus id (provider w)).2 /\
        match (GetInstanceStatus id (provider w)).1 with
        | Fail _ =>
            res.1 = http_StatusInternalServerError /\
            calls res.2 = calls w ++ [CallGetInstanceStatus id] /\
            storage res.2 = storage w
        | Ok status =>
            let drift :=
              negb (streq (InstanceStatus.PublicIP status) (PublicIP instance))
              || negb (streq (InstanceStatus.PrivateIP status) (PrivateIP instance))
              || negb (streq (InstanceStatus.State status) (State instance)) in
            res.1 = http_StatusOK /\
            calls res.2 =
              calls w ++ CallGetInstanceStatus id ::
              (if drift then [CallSaveInstance (synced status instance)] else []) /\
            forall k, stored res.2 k =
              if drift && writable (storage w) && bool_decide (k = ID instance)
              then Some (synced status instance) else stored w k
        end
    end.
Proof.
  cbn zeta. unfold handleInstanceStatus.
  destruct (negb (streq (Method r) http_MethodGet)); [cbn; auto|].
  destruct (streq (instance_id r) ""); [cbn; auto|]. cbn [orb].
  rewrite bind_unfold.
  destruct (stored w (instance_id r)) as [instance|] eqn:Hst.
  2:{ destruct (GetInstance_missing _ _ Hst) as [e ->]. reflexivity. }
  rewrite (GetInstance_found _ _ _ Hst). cbn [fst snd].
  rewrite bind_unfold, provider_GetInstanceStatus_eq. cbn [fst snd].
  set (wq := set_provider _ _).
  destruct (GetInstanceStatus (instance_id r) (provider w)).1 as [status|e];
    [|repeat split].
  rewrite bind_unfold.
  destruct (negb (streq (InstanceStatus.PublicIP status) (PublicIP instance))
            || negb (streq (InstanceStatus.PrivateIP status) (PrivateIP instance))
            || negb (streq (InstanceStatus.State status) (State instance))).
  - rewrite bind_ret_fst, bind_ret_snd.
    change (set_State (InstanceStatus.State status)
              (set_PrivateIP (InstanceStatus.PrivateIP status)
                 (set_PublicIP (InstanceStatus.PublicIP status) instance)))
      with (synced status instance).
    unfold IsExpired, time_Until. rewrite !bind_unfold.
    unfold ret. cbn [fst snd time_Now provider calls storage set_ticks].
    destruct (SaveInstance_frame (synced status instance) wq) as (Hp & Hc & _).
    rewrite Hp, Hc. subst wq. cbn [provider calls set_provider set_calls].
    rewrite <- app_assoc. repeat split.
    intros k. unfold stored at 1. cbn [storage set_ticks].
    fold (stored (SaveInstance (synced status instance)
                    (set_provider (GetInstanceStatus (instance_id r) (provider w)).2
                       (set_calls (calls w ++ [CallGetInstanceStatus (instance_id r)]) w))).2 k).
    rewrite SaveInstance_stored. reflexivity.
  - unfold IsExpired, time_Until. rewrite !bind_unfold.
    unfold ret. cbn [fst snd time_Now provider calls storage set_ticks].
    subst wq. cbn [provider calls set_provider set_calls]. repeat split.
Qed.

(** *** The start of a pass *)

(** X25: the scheduler reads the file afresh at every pass.  Whatever
    [lastReload] and the reload interval are, [getInstancesWithReload]
    returns what [ListInstances] returns on the file as it is, with a
    nil error; the interval only decides whether [lastReload] is set to
    the current time.  So the pass always runs its loop, over that list. *)
Theorem getInstancesWithReload_rereads w :
  let r := getInstancesWithReload w in
  r.1 = (ListInstances w).1 /\
  r.1.2 = NoError /\
  storage r.2 = storage w /\ provider r.2 = provider w /\ calls r.2 = calls w /\
  lastReload r.2 =
    (if bool_decide (reloadInterval < Sub (clock w (ticks w)) (lastReload w))
     then clock w (S (ticks w)) else lastReload w) /\
  RunOnce w = range_instances (ListInstances w).1.1 r.2.
Proof.
  cbn zeta. unfold RunOnce, processInstances.
  rewrite (bind_unfold getInstancesWithReload).
  unfold getInstancesWithReload, time_Since, time_Now, ListInstances, loadData,
    bind, ret. cbn.
  destruct (bool_decide _); cbn; destruct (file (storage w)); cbn;
    repeat split; reflexivity.
Qed.

(** *** Durations *)

Lemma ParseDuration_bare s n :
  strconv_Atoi (strings_ToLower (strings_TrimSpace s)) = Ok n ->
  ParseDuration s = Ok (wrap64 (n * time_Hour)).
Proof. intros Ha. unfold ParseDuration. rewrite Ha. reflexivity. Qed.

(** X26: a duration given as a bare number is a number of hours: for
    every number that [strconv.Atoi] reads and whose hours fit in 64
    bits, up to 2562047 in absolute value, [ParseDuration] returns that
    many hours, before any other format is tried. *)
Theorem ParseDuration_bare_number_is_hours s n :
  strconv_Atoi (strings_ToLower (strings_TrimSpace s)) = Ok n ->
  -2562047 <= n <= 2562047 ->
  ParseDuration s = Ok (n * time_Hour).
Proof.
  intros Ha Hn. rewrite (ParseDuration_bare s n Ha). f_equal.
  unfold wrap64, time_Hour, time_Minute, time_Second.
  replace ((n * (60 * (60 * 1000000000)) + 2 ^ 63) mod 2 ^ 64)
    with (n * (60 * (60 * 1000000000)) + 2 ^ 63); [lia|].
  symmetry. apply Z.mod_small. lia.
Qed.

(** X27: a lease extension by a bare number of hours that overflows 64
    bits moves the expiry backward.  For a number of hours from 2562048
    to 5124095 the parsed duration is negative; when the expiry it
    leads to still has a year from 0 on, the save hands the encoder
    times it encodes, the extension is accepted with 200 and the record
    is saved with an expiry before the one it had. *)
Theorem overflowing_extension_moves_expiry_backward r w req n i :
  json_world w ->
  json_time (Add (ExpiresAt i) (n * time_Hour - 2 ^ 64)) = true ->
  Method r = http_MethodPost -> instance_id r <> "" ->
  Body r = Some req ->
  strconv_Atoi (strings_ToLower (strings_TrimSpace
                  (ExtendInstanceRequest.Duration req))) = Ok n ->
  2562048 <= n <= 5124095 ->
  keyed w ->
  stored w (instance_id r) = Some i ->
  writable (storage w) = true ->
  let res := handleExtendInstance r w in
  ParseDuration (ExtendInstanceRequest.Duration req) = Ok (n * time_Hour - 2 ^ 64) /\
  json_world res.2 /\
  res.1 = http_StatusOK /\
  stored_expiry res.2 (instance_id r) = Some (ExpiresAt i + (n * time_Hour - 2 ^ 64)) /\
  ExpiresAt i + (n * time_Hour - 2 ^ 64) < ExpiresAt i.
Proof.
  intros Hjw Hje Hm Hid Hb Ha Hn Hk Hst Hw res.
  assert (Hd : ParseDuration (ExtendInstanceRequest.Duration req) =
               Ok (n * time_Hour - 2 ^ 64)).
  { rewrite (ParseDuration_bare _ n Ha). f_equal.
    unfold wrap64, time_Hour, time_Minute, time_Second.
    replace (n * (60 * (60 * 1000000000)) + 2 ^ 63)
      with (n * (60 * (60 * 1000000000)) - 2 ^ 63 + 1 * 2 ^ 64) by lia.
    rewrite Z.mod_add by lia. rewrite Z.mod_small by lia. lia. }
  split; [exact Hd|]. subst res.
  rewrite (handleExtendInstance_success r w req _ i Hm Hid Hb Hd Hst Hw).
  cbn [fst snd].
  split; [apply SaveInstance_json;
          [exact (set_ExpiresAt_json w _ i _ Hjw Hst Hje) | exact Hjw]|].
  split; [reflexivity|]. split.
  - unfold stored_expiry. rewrite SaveInstance_stored, Hw. cbn [andb].
    rewrite bool_decide_eq_true_2; [reflexivity|].
    symmetry. apply (Hk _ _ Hst).
  - unfold time_Hour, time_Minute, time_Second. lia.
Qed.

(** *** The restart of a stopped record *)

(** X28: the restart of a stopped record, the counterpart of the stop.
    If the start call of the provider succeeds, the record gets the
    state pending and is handed to the store, which then holds it under
    its id (when a record was there and the file can be written); if
    the start call fails, the record is returned as it was, no write
    follows the failed call and the backing file is as before.  In both
    cases the clock is read once and the start is sent once, through
    [startInstance]. *)
Theorem handleStoppedInstance_outcome i w :
  let r := handleStoppedInstance i w in
  provider r.2 = (StartInstance (ID i) (provider w)).2 /\
  if is_nil (StartInstance (ID i) (provider w)).1 then
    r.1 = set_State "pending" i /\
    calls r.2 = calls w ++ [CallStartInstance (ID i);
                            CallUpdateInstance (set_State "pending" i)] /\
    forall k, stored r.2 k =
      if writable (storage w) && bool_decide (is_Some (stored w (ID i)))
         && bool_decide (k = ID i)
      then Some (set_State "pending" i) else stored w k
  else
    r = (i, set_provider (StartInstance (ID i) (provider w)).2
              (set_calls (calls w ++ [CallStartInstance (ID i)])
                 (set_ticks (S (ticks w)) w))).
Proof.
  cbn zeta.
  destruct (handleStoppedInstance_calls i w) as [Hc Hr].
  pose proof (handleStoppedInstance_stored i w) as Hs.
  assert (Hp : provider (handleStoppedInstance i w).2 =
               (StartInstance (ID i) (provider w)).2 /\
               (is_nil (StartInstance (ID i) (provider w)).1 = false ->
                handleStoppedInstance i w =
                  (i, set_provider (StartInstance (ID i) (provider w)).2
                        (set_calls (calls w ++ [CallStartInstance (ID i)])
                           (set_ticks (S (ticks w)) w))))).
  { unfold handleStoppedInstance, startInstance. rewrite bind_unfold.
    change (time_Until (ExpiresAt i) w).2 with (set_ticks (S (ticks w)) w).
    rewrite bind_unfold, provider_StartInstance_eq.
    cbn [fst snd provider set_ticks].
    destruct (is_nil (StartInstance (ID i) (provider w)).1).
    - split; [|discriminate]. rewrite bind_ret_snd.
      match goal with |- provider (UpdateInstance ?j ?w0).2 = _ =>
        destruct (UpdateInstance_frame j w0) as (_ & _ & Hpr & _) end.
      rewrite Hpr. reflexivity.
    - split; reflexivity. }
  destruct Hp as [Hp Hfail]. split; [exact Hp|].
  unfold start_calls in Hc.
  destruct (is_nil (StartInstance (ID i) (provider w)).1).
  - rewrite Hr. repeat split; [exact Hc|]. intros k. rewrite Hs. reflexivity.
  - apply Hfail. reflexivity.
Qed.

End MoreProperties.

(** ** The properties of the rest of the code at sample inputs *)

Lemma scene_keyed live i now : keyed (scene live i now).
Proof.
  intros k j. unfold stored, scene, sample_world, sample_file.
  cbn [storage file Instances].
  destruct (decide (k = ID i)) as [->|Hne].
  - rewrite lookup_singleton_eq. cbn. intros [= <-]. reflexivity.
  - rewrite lookup_singleton_ne by congruence. discriminate.
Qed.

Lemma scene_json_world live i now :
  json_instance i = true -> json_time now = true ->
  json_world (scene live i now).
Proof.
  intros Hi Hnow. split; [intros n _; exact Hnow|].
  unfold scene, sample_world, sample_file. cbn [storage file json_file SR_UpdatedAt].
  split; [reflexivity|]. intros k r. cbn [Instances].
  destruct (decide (k = ID i)) as [->|Hne].
  - rewrite lookup_singleton_eq. intros [= <-].
    unfold json_record. cbn. rewrite Hi. reflexivity.
  - rewrite lookup_singleton_ne by congruence. discriminate.
Qed.



Lemma SaveInstance_replaces_damaged_file_witness :
  let i := sample_instance "i-1" "running" 100 in
  let w := scene_file Malformed true 7 in
  ((file (storage w) = Unreadable \/ file (storage w) = Malformed) /\
   writable (storage w) = true) /\
  (SaveInstance i w).1 = NoError /\
  (ListInstances (SaveInstance i w).2).1 = ([i], NoError) /\
  (GetInstance "i-2" (SaveInstance i w).2).1 = Fail (ErrNotFound "i-2").
Proof.
  intros i w.
  assert (Hf : file (storage w) = Unreadable \/ file (storage w) = Malformed)
    by (right; reflexivity).
  assert (Hw : writable (storage w) = true) by reflexivity.
  destruct (SaveInstance_replaces_damaged_file i w Hf Hw) as (He & Hl & Hg).
  split; [split; assumption|]. split; [exact He|]. split; [exact Hl|].
  exact (Hg "i-2").
Defined.

Lemma CreatedAt_kept_by_update_reset_by_save_witness :
  let i0 := sample_instance "i-1" "running" 100 in
  let i := set_State "stopped" i0 in
  let w := scene "running" i0 50 in
  let r := mkInstanceRecord i0 0 0 in
  (json_instance i = true /\ json_world w /\
   record_at w (ID i) = Some r /\ writable (storage w) = true) /\
  json_world (UpdateInstance i w).2 /\
  json_world (SaveInstance i w).2 /\
  record_at (UpdateInstance i w).2 "i-1" = Some (mkInstanceRecord i 0 50) /\
  record_at (SaveInstance i w).2 "i-1" = Some (mkInstanceRecord i 50 50).
Proof.
  intros i0 i w r.
  assert (Hi : json_instance i = true) by reflexivity.
  assert (Hjw : json_world w) by (apply scene_json_world; reflexivity).
  assert (Hr : record_at w (ID i) = Some r) by reflexivity.
  assert (Hw : writable (storage w) = true) by reflexivity.
  split; [exact (conj Hi (conj Hjw (conj Hr Hw)))|].
  exact (CreatedAt_kept_by_update_reset_by_save i w r Hi Hjw Hr Hw).
Defined.

Lemma ListInstances_lists_the_store_witness :
  let i := sample_instance "i-1" "running" 100 in
  let w := scene "running" i 50 in
  keyed w /\
  (forall j, In j (ListInstances w).1.1 <-> exists k, stored w k = Some j) /\
  NoDup (map ID (ListInstances w).1.1).
Proof.
  intros i w.
  assert (Hk : keyed w) by apply scene_keyed.
  split; [exact Hk|]. exact (ListInstances_lists_the_store w Hk).
Defined.

Lemma GetExpiredInstances_frozen_witness :
  let i := sample_instance "i-1" "running" 100 in
  let w := scene "running" i 100 in
  let w' := scene "running" i 101 in
  (during w (eq 100) /\ during w' (eq 101)) /\
  ((GetExpiredInstances w).1.2 = NoError /\
   (GetExpiredInstances w).1.1 ≡ₚ [] /\
   storage (GetExpiredInstances w).2 = storage w /\
   calls (GetExpiredInstances w).2 = calls w) /\
  (GetExpiredInstances w').1.1 ≡ₚ [i].
Proof.
  intros i w w'.
  assert (Hd : during w (eq 100)) by (intros n _; reflexivity).
  assert (Hd' : during w' (eq 101)) by (intros n _; reflexivity).
  destruct (GetExpiredInstances_frozen w 100 Hd) as (_ & He & Hp & _ & Hs & Hc).
  destruct (GetExpiredInstances_frozen w' 101 Hd') as (_ & _ & Hp' & _).
  split; [exact (conj Hd Hd')|]. split.
  - split; [exact He|]. split; [exact Hp|]. split; [exact Hs | exact Hc].
  - exact Hp'.
Defined.

Lemma store_writes_keep_keyed_witness :
  let i := sample_instance "i-1" "running" 100 in
  let j := sample_instance "i-2" "stopped" 10 in
  let w := scene "running" i 50 in
  keyed w /\
  keyed (SaveInstance j w).2 /\
  keyed (UpdateInstance j w).2 /\
  keyed (DeleteInstance "i-1" w).2.
Proof.
  intros i j w.
  assert (Hk : keyed w) by apply scene_keyed.
  split; [exact Hk|]. exact (store_writes_keep_keyed j "i-1" w Hk).
Defined.



Lemma live_terminated_retires_record_witness :
  let i := sample_instance "i-1" "running" 100 in
  let w := scene "terminated" i 50 in
  let status := sample_status "i-1" "terminated" "1.2.3.4" in
  (terminal i = false /\
   GetInstanceStatus (ID i) (provider w) = (Ok status, provider w) /\
   (InstanceStatus.State status = "terminated" \/
    InstanceStatus.State status = "terminating")) /\
  (processInstance i w).1 = synced status i /\
  issued i w = [CallGetInstanceStatus "i-1"; CallUpdateInstance (synced status i)] /\
  stored (processInstance i w).2 "i-1" = Some (synced status i) /\
  processInstance (processInstance i w).1 w = ((processInstance i w).1, w).
Proof.
  intros i w status.
  assert (Ht : terminal i = false) by reflexivity.
  assert (Hq : GetInstanceStatus (ID i) (provider w) = (Ok status, provider w))
    by reflexivity.
  assert (Hl : InstanceStatus.State status = "terminated" \/
               InstanceStatus.State status = "terminating") by (left; reflexivity).
  destruct (live_terminated_retires_record i w status (provider w) Ht Hq Hl)
    as (Hr & Hi & Hs & Hskip).
  split; [repeat split; assumption|].
  split; [exact Hr|]. split; [exact Hi|]. split.
  - apply Hs; [reflexivity|]. exists i. reflexivity.
  - exact (Hskip w).
Defined.

Lemma steady_record_is_only_queried_witness :
  let i := sample_instance "i-1" "running" 100 in
  let w := scene "running" i 100 in
  let status := sample_status "i-1" "running" "1.2.3.4" in
  (GetInstanceStatus (ID i) (provider w) = (Ok status, provider w) /\
   InstanceStatus.State status = State i /\
   (State i = "running" \/ State i = "pending") /\
   during w (fun now => now <= ExpiresAt i)) /\
  (processInstance i w).1 = i /\
  issued i w = [CallGetInstanceStatus "i-1"] /\
  storage (processInstance i w).2 = storage w.
Proof.
  intros i w status.
  assert (Hq : GetInstanceStatus (ID i) (provider w) = (Ok status, provider w))
    by reflexivity.
  assert (Hs : InstanceStatus.State status = State i) by reflexivity.
  assert (Hr : State i = "running" \/ State i = "pending") by (left; reflexivity).
  assert (Hd : during w (fun now => now <= ExpiresAt i))
    by (intros n _; cbn; lia).
  split; [repeat split; assumption|].
  exact (steady_record_is_only_queried i w status (provider w) Hq Hs
           (or_introl (conj Hr Hd))).
Defined.

Lemma extended_lease_restarts_stopped_instance_witness :
  let i := sample_instance "i-1" "stopped" 10 in
  let w := scene "stopped" i 50 in
  let r := post "i-1" "1h" in
  let status := sample_status "i-1" "stopped" "1.2.3.4" in
  let i1 := set_ExpiresAt (10 + time_Hour) i in
  (json_world w /\ json_time (Add (ExpiresAt i) time_Hour) = true /\
   Method r = http_MethodPost /\ instance_id r <> "" /\
   Body r = Some (ExtendInstanceRequest.mk "1h") /\
   ParseDuration "1h" = Ok time_Hour /\
   keyed w /\ stored w "i-1" = Some i /\ writable (storage w) = true /\
   terminal i = false /\
   GetInstanceStatus (ID i) (provider w) = (Ok status, provider w) /\
   InstanceStatus.State status = "stopped" /\
   during w (fun now => now < Add (ExpiresAt i) time_Hour)) /\
  json_world (handleExtendInstance r w).2 /\
  (handleExtendInstance r w).1 = http_StatusOK /\
  stored (handleExtendInstance r w).2 "i-1" = Some i1 /\
  action_of (issued i1 (handleExtendInstance r w).2) = ActionStart.
Proof.
  intros i w r status i1.
  assert (Hjw : json_world w) by (apply scene_json_world; reflexivity).
  assert (Hje : json_time (Add (ExpiresAt i) time_Hour) = true) by reflexivity.
  assert (Hm : Method r = http_MethodPost) by reflexivity.
  assert (Hid : instance_id r <> "") by discriminate.
  assert (Hb : Body r = Some (ExtendInstanceRequest.mk "1h")) by reflexivity.
  assert (Hd : ParseDuration "1h" = Ok time_Hour) by reflexivity.
  assert (Hk : keyed w) by apply scene_keyed.
  assert (Hst : stored w "i-1" = Some i) by reflexivity.
  assert (Hw : writable (storage w) = true) by reflexivity.
  assert (Ht : terminal i = false) by reflexivity.
  assert (Hq : GetInstanceStatus (ID i) (provider w) = (Ok status, provider w))
    by reflexivity.
  assert (Hl : InstanceStatus.State status = "stopped" \/
               InstanceStatus.State status = "stopping") by (left; reflexivity).
  assert (Hf : during w (fun now => now < Add (ExpiresAt i) time_Hour))
    by (intros n _; vm_compute; reflexivity).
  split;
    [exact (conj Hjw (conj Hje (conj Hm (conj Hid (conj Hb (conj Hd (conj Hk
              (conj Hst (conj Hw (conj Ht (conj Hq (conj eq_refl Hf))))))))))))|].
  exact (extended_lease_restarts_stopped_instance r w _ time_Hour i status
           (provider w) Hjw Hje Hm Hid Hb Hd Hk Hst Hw Ht Hq Hl Hf).
Defined.


Lemma terminated_instance_leaves_the_pass_witness :
  let i := sample_instance "i-1" "running" 100 in
  let w := scene "running" i 50 in
  let r := post "i-1" "" in
  let w1 := (handleTerminateInstance r w).2 in
  (Method r = http_MethodPost /\ instance_id r <> "" /\ keyed w /\
   writable (storage w) = true /\
   is_nil (TerminateInstance "i-1" (provider w)).1 = true) /\
  (handleTerminateInstance r w).1 = http_StatusOK /\
  stored w1 "i-1" = None /\
  exists cs, calls (RunOnce w1).2 = calls w1 ++ cs /\
    Forall (fun c => call_id c <> "i-1") cs.
Proof.
  intros i w r w1.
  assert (Hm : Method r = http_MethodPost) by reflexivity.
  assert (Hid : instance_id r <> "") by discriminate.
  assert (Hk : keyed w) by apply scene_keyed.
  assert (Hw : writable (storage w) = true) by reflexivity.
  assert (Hok : is_nil (TerminateInstance (instance_id r) (provider w)).1 = true)
    by reflexivity.
  split; [repeat split; assumption|].
  exact (terminated_instance_leaves_the_pass r w Hm Hid Hk Hw Hok).
Defined.

Lemma ParseDuration_bare_number_is_hours_witness :
  (@strconv_Atoi Hours_GoRuntime "2" = Ok 2 /\ -2562047 <= 2 <= 2562047) /\
  @ParseDuration Hours_GoRuntime "2" = Ok (2 * time_Hour).
Proof.
  assert (Ha : @strconv_Atoi Hours_GoRuntime
                 (@strings_ToLower Hours_GoRuntime
                    (@strings_TrimSpace Hours_GoRuntime "2")) = Ok 2)
    by reflexivity.
  assert (Hn : -2562047 <= 2 <= 2562047) by lia.
  split; [split; [exact Ha | exact Hn]|].
  exact (@ParseDuration_bare_number_is_hours Hours_GoRuntime "2" 2 Ha Hn).
Defined.

(** A lease that runs until a time in the year 2029, extended by
    3000000 hours: the product wraps around to about 242 years back. *)
Lemma overflowing_extension_moves_expiry_backward_witness :
  let e := 64000000000000000000 in
  let i := sample_instance "i-1" "running" e in
  let w := scene "running" i 50 in
  let r := post "i-1" "3000000" in
  let res := @handleExtendInstance Mock Hours_GoRuntime r w in
  (json_world w /\
   json_time (Add (ExpiresAt i) (3000000 * time_Hour - 2 ^ 64)) = true /\
   Method r = http_MethodPost /\ instance_id r <> "" /\
   Body r = Some (ExtendInstanceRequest.mk "3000000") /\
   @strconv_Atoi Hours_GoRuntime "3000000" = Ok 3000000 /\
   2562048 <= 3000000 <= 5124095 /\
   keyed w /\ stored w "i-1" = Some i /\ writable (storage w) = true) /\
  json_world res.2 /\
  res.1 = http_StatusOK /\
  stored_expiry res.2 "i-1" = Some (e + (3000000 * time_Hour - 2 ^ 64)) /\
  e + (3000000 * time_Hour - 2 ^ 64) < e.
Proof.
  intros e i w r res.
  assert (Hjw : json_world w) by (apply scene_json_world; reflexivity).
  assert (Hje : json_time (Add (ExpiresAt i) (3000000 * time_Hour - 2 ^ 64)) = true)
    by reflexivity.
  assert (Hm : Method r = http_MethodPost) by reflexivity.
  assert (Hid : instance_id r <> "") by discriminate.
  assert (Hb : Body r = Some (ExtendInstanceRequest.mk "3000000")) by reflexivity.
  assert (Ha : @strconv_Atoi Hours_GoRuntime
                 (@strings_ToLower Hours_GoRuntime
                    (@strings_TrimSpace Hours_GoRuntime
                       (ExtendInstanceRequest.Duration
                          (ExtendInstanceRequest.mk "3000000")))) = Ok 3000000)
    by reflexivity.
  assert (Hn : 2562048 <= 3000000 <= 5124095) by lia.
  assert (Hk : keyed w) by apply scene_keyed.
  assert (Hst : stored w (instance_id r) = Some i) by reflexivity.
  assert (Hw : writable (storage w) = true) by reflexivity.
  split;
    [exact (conj Hjw (conj Hje (conj Hm (conj Hid (conj Hb (conj Ha (conj Hn
              (conj Hk (conj Hst Hw)))))))))|].
  destruct (@overflowing_extension_moves_expiry_backward Mock Hours_GoRuntime
              r w _ 3000000 i Hjw Hje Hm Hid Hb Ha Hn Hk Hst Hw)
    as (_ & Hj & Hc & He & Hlt).
  split; [exact Hj|]. split; [exact Hc|]. split; [exact He | exact Hlt].
Defined.
